(** * slipsentry: the calldata decoding engine

    A shallow embedding of the decoding half of [slipsentry.py]
    (byte and word utilities, the dynamic-field reader, the Uniswap V2
    and V3 decoders and the packed V3 path parser), followed by the
    properties of these functions.

    Conventions.
    - Python [int] is [Z]; [bytes] is [list byte]; [str] is [string].
    - [payload[i:j]] is {!slice}, with Python's treatment of negative and
      out-of-range bounds written out.
    - A raised exception is the [Raise] branch of {!result}.  The source
      raises [click.ClickException] with a message; list indexing past the
      end raises Python's builtin [IndexError].
    - [Dict[str, Any]] is a [gmap string value]. *)

From Equations Require Import Equations.
From stdpp Require Import base numbers list strings gmap pretty.
From Stdlib Require Import Strings.Ascii Strings.Byte.

Local Open Scope string_scope.
Local Open Scope list_scope.
Local Open Scope Z_scope.

(** ** Exceptions and the error monad *)

Inductive exn : Type :=
| ClickException (msg : string)
| IndexError.

Inductive result (A : Type) : Type :=
| Ok (a : A)
| Raise (e : exn).
Arguments Ok {A} a.
Arguments Raise {A} e.

#[export] Instance result_bind : MBind result := λ A B k m,
  match m with
  | Ok a => k a
  | Raise e => Raise e
  end.

(** [if not c: raise e] followed by the rest of the block. *)
Notation "'ensure' c 'else' e ; k" := (if c then k else Raise e)
  (at level 20, c at level 100, e at level 100, k at level 200, only parsing).

(** The messages of the source, under the names the specification gives to
    the error kinds. *)
Definition HexLengthOdd : exn := ClickException "Hex length must be even".
Definition InvalidHex (e : string) : exn := ClickException ("Invalid hex: " +:+ e).
Definition DynamicHeadOutOfBounds : exn := ClickException "Dynamic head points out of bounds".
Definition DynamicBodyTruncated : exn := ClickException "Dynamic body truncated".
Definition BadPathOffsetV2 : exn := ClickException "Bad offset for path[]".
Definition PathTruncated : exn := ClickException "path[] truncated".
Definition UnknownV2Layout : exn := ClickException "Unknown V2 swap layout".
Definition V3StructTooShort : exn := ClickException "V3 struct too short".
Definition BadPathOffsetV3 : exn := ClickException "Bad offset for path (V3)".

(** ** Python sequences *)

Abbreviation bytes := (list byte).

Definition len {A : Type} (l : list A) : Z := Z.of_nat (length l).

(** A slice bound as Python resolves it against a sequence of length [n]:
    a negative bound counts from the end, and every bound is clamped to
    [0 .. n]. *)
Definition clamp_bound (n i : Z) : Z :=
  if i <? 0 then Z.max (i + n) 0 else Z.min i n.

(** [l[i:j]] *)
Definition slice {A : Type} (l : list A) (i j : Z) : list A :=
  let lo := clamp_bound (len l) i in
  let hi := clamp_bound (len l) j in
  take (Z.to_nat (hi - lo)) (drop (Z.to_nat lo) l).

(** [l[i:]] *)
Definition slice_from {A : Type} (l : list A) (i : Z) : list A :=
  drop (Z.to_nat (clamp_bound (len l) i)) l.

(** [range(start, stop, step)] for a positive [step]. *)
Definition range3 (start stop step : Z) : list Z :=
  (λ k : nat, start + Z.of_nat k * step) <$> seq 0 (Z.to_nat ((stop - start + step - 1) `div` step)).

(** [range(n)] *)
Definition range (n : Z) : list Z := Z.of_nat <$> seq 0 (Z.to_nat n).

(** [w[k]] for a literal, non-negative [k]. *)
Definition index {A : Type} (w : list A) (k : nat) : result A :=
  match w !! k with
  | Some x => Ok x
  | None => Raise IndexError
  end.

(** ** Hexadecimal text *)

Definition hex_digit (n : N) : ascii :=
  match n with
  | 0%N => "0" | 1%N => "1" | 2%N => "2" | 3%N => "3"
  | 4%N => "4" | 5%N => "5" | 6%N => "6" | 7%N => "7"
  | 8%N => "8" | 9%N => "9" | 10%N => "a" | 11%N => "b"
  | 12%N => "c" | 13%N => "d" | 14%N => "e" | _ => "f"
  end%char.

(** [b.hex()] *)
Fixpoint hex (b : bytes) : string :=
  match b with
  | [] => ""
  | x :: b' =>
      String (hex_digit (Byte.to_N x / 16)) (String (hex_digit (Byte.to_N x mod 16)) (hex b'))
  end.

(** The value of a hexadecimal digit, either case. *)
Definition digit_value (c : ascii) : option N :=
  let n := N_of_ascii c in
  if (48 <=? n)%N && (n <=? 57)%N then Some (n - 48)%N
  else if (97 <=? n)%N && (n <=? 102)%N then Some (n - 87)%N
  else if (65 <=? n)%N && (n <=? 70)%N then Some (n - 55)%N
  else None.

Definition is_hex_digit (c : ascii) : bool :=
  match digit_value c with Some _ => true | None => false end.

(** C's [isspace] on ASCII, which [bytes.fromhex] skips between bytes. *)
Definition is_space (c : ascii) : bool :=
  let n := N_of_ascii c in
  (n =? 32)%N || ((9 <=? n)%N && (n <=? 13)%N).

Definition lower_char (c : ascii) : ascii :=
  let n := N_of_ascii c in
  if (65 <=? n)%N && (n <=? 90)%N then ascii_of_N (n + 32) else c.

(** [s.lower()]; the characters are code points below 256, and those from
    128 on stay where they are and stay outside ASCII. *)
Fixpoint lower (s : string) : string :=
  match s with
  | "" => ""
  | String c s' => String (lower_char c) (lower s')
  end.

Definition byte_of_digits (hi lo : N) : byte :=
  match Byte.of_N (16 * hi + lo) with
  | Some x => x
  | None => x00
  end.

(** The text of the [ValueError] of [bytes.fromhex]. *)
Definition fromhex_error (pos : nat) : string :=
  "non-hexadecimal number found in fromhex() arg at position " +:+ pretty pos.

(** The scan of [bytes.fromhex(s)], as CPython implements it: pairs of
    hexadecimal digits, white space allowed before each pair and at the end;
    a character that is not a digit is an error that carries its position,
    and so is the end of the text after the first digit of a pair ([pos] is
    the position of the head of [s]). *)
Fixpoint fromhex_at (pos : nat) (s : string) : string + bytes :=
  match s with
  | "" => inr []
  | String c s' =>
      if is_space c then fromhex_at (S pos) s'
      else
        match digit_value c with
        | None => inl (fromhex_error pos)
        | Some hi =>
            match s' with
            | "" => inl (fromhex_error (S pos))
            | String d s'' =>
                match digit_value d with
                | None => inl (fromhex_error (S pos))
                | Some lo =>
                    match fromhex_at (S (S pos)) s'' with
                    | inl e => inl e
                    | inr b => inr (byte_of_digits hi lo :: b)
                    end
                end
            end
        end
  end.

(** The position of the first character at or after the head of [s] that
    is not ASCII ([pos] is the position of the head of [s]). *)
Fixpoint first_non_ascii_at (pos : nat) (s : string) : option nat :=
  match s with
  | "" => None
  | String c s' =>
      if (128 <=? N_of_ascii c)%N then Some pos else first_non_ascii_at (S pos) s'
  end.

(** [bytes.fromhex(s)]: CPython first rejects a text that is not ASCII,
    with the position of its first character that is not; only then does it
    read the pairs. *)
Definition fromhex (s : string) : string + bytes :=
  match first_non_ascii_at 0 s with
  | Some pos => inl (fromhex_error pos)
  | None => fromhex_at 0 s
  end.

(** ** Utility *)

Definition startswith (h p : string) : bool := String.prefix p h.

Definition strip0x (h : string) : string :=
  if startswith h "0x" then String.substring 2 (String.length h - 2) h else h.

Definition as_bytes (h : string) : result bytes :=
  let h := lower (strip0x h) in
  ensure bool_decide (Z.of_nat (String.length h) `mod` 2 = 0) else HexLengthOdd;
  match fromhex h with
  | inr b => Ok b
  | inl e => Raise (InvalidHex e)
  end.

(** [int.from_bytes(b, "big")] *)
Definition int_from_bytes_big (b : bytes) : Z :=
  foldl (λ acc x, acc * 256 + Z.of_N (Byte.to_N x)) 0 b.

Definition u256 (b : bytes) : Z :=
  match b with
  | [] => 0
  | _ => int_from_bytes_big b
  end.

Definition words (payload : bytes) : list bytes :=
  (λ i, slice payload i (i + 32)) <$> range3 0 (len payload) 32.

Definition is_offset_like (v total : Z) : bool :=
  bool_decide (v `mod` 32 = 0) && bool_decide (0 ≤ v ∧ v ≤ Z.max 0 (total - 32)).

Definition read_dyn (payload : bytes) (off : Z) : result (Z * bytes) :=
  ensure negb (bool_decide (off + 32 > len payload)) else DynamicHeadOutOfBounds;
  let ln := u256 (slice payload off (off + 32)) in
  ensure negb (bool_decide (off + 32 + ln > len payload)) else DynamicBodyTruncated;
  Ok (ln, slice payload (off + 32) (off + 32 + ln)).

Definition to_hex_addr (word32 : bytes) : string :=
  "0x" +:+ hex (slice_from word32 (-20)).

(** ** Known selectors *)

Definition SEL_V2_SWAP_EXACT_TOKENS_FOR_TOKENS : string := "38ed1739".
Definition SEL_V2_SWAP_TOKENS_FOR_EXACT_TOKENS : string := "8803dbee".
Definition SEL_V2_SWAP_EXACT_ETH_FOR_TOKENS : string := "7ff36ab5".
Definition SEL_V2_SWAP_EXACT_TOKENS_FOR_ETH : string := "18cbafe5".
Definition SEL_V2_SWAP_ETH_FOR_EXACT_TOKENS : string := "fb3bdb41".
Definition SEL_V3_EXACT_INPUT : string := "04e45aaf".
Definition SEL_V3_EXACT_OUTPUT : string := "09b81346".

Definition UINT256_MAX : Z := Z.shiftl 1 256 - 1.

(** ** Decoders *)

(** The values stored in the [fields] dictionary. *)
Inductive value : Type :=
| VInt (n : Z)
| VStr (s : string).

(** The closure [decode_path_at_arg] of [decode_v2]; [H], [w] and [total]
    are the variables it captures. *)
Definition decode_path_at_arg (H : bytes) (w : list bytes) (total : Z)
    (arg_index : nat) : result (list string) :=
  word ← index w arg_index;
  let off := u256 word in
  ensure is_offset_like off total else BadPathOffsetV2;
  '(ln, body) ← read_dyn H off;
  if bool_decide (ln = 0) then Ok []
  else
    ensure negb (bool_decide (off + 32 + ln * 32 > len H)) else PathTruncated;
    Ok ((λ i, to_hex_addr (slice H (off + 32 + i * 32) (off + 32 + (i + 1) * 32))) <$> range ln).

Definition decode_v2 (payload : bytes) (sel : string)
    : result (gmap string value * list string) :=
  let H := payload in
  let w := words H in
  let total := len H in
  let fields : gmap string value := ∅ in
  if bool_decide (sel ∈ [SEL_V2_SWAP_EXACT_TOKENS_FOR_TOKENS;
                         SEL_V2_SWAP_TOKENS_FOR_EXACT_TOKENS;
                         SEL_V2_SWAP_EXACT_TOKENS_FOR_ETH]) then
    w0 ← index w 0;
    let fields := <["amount0" := VInt (u256 w0)]> fields in
    w1 ← index w 1;
    let fields := <["amount1" := VInt (u256 w1)]> fields in
    path_tokens ← decode_path_at_arg H w total 2;
    w3 ← index w 3;
    let fields := <["to" := VStr (to_hex_addr w3)]> fields in
    w4 ← index w 4;
    let fields := <["deadline" := VInt (u256 w4)]> fields in
    Ok (fields, path_tokens)
  else if bool_decide (sel ∈ [SEL_V2_SWAP_EXACT_ETH_FOR_TOKENS;
                              SEL_V2_SWAP_ETH_FOR_EXACT_TOKENS]) then
    w0 ← index w 0;
    let fields := <["amount0" := VInt (u256 w0)]> fields in
    path_tokens ← decode_path_at_arg H w total 1;
    w2 ← index w 2;
    let fields := <["to" := VStr (to_hex_addr w2)]> fields in
    w3 ← index w 3;
    let fields := <["deadline" := VInt (u256 w3)]> fields in
    Ok (fields, path_tokens)
  else Raise UnknownV2Layout.

(** The [while i < len(b)] loop of [parse_v3_path_bytes], on its two
    variables [i] and [toks]; every turn that does not [break] moves [i]
    forward by 23, which is the measure. *)
Equations? v3_path_loop (b : bytes) (i : Z) (toks : list string) : list string
    by wf (Z.to_nat (len b - i)) lt :=
  v3_path_loop b i toks with decide (i < len b) := {
    | right _ => toks
    | left _ with decide (i + 3 + 20 > len b) := {
        | left _ => toks
        | right _ =>
            v3_path_loop b (i + 3 + 20)
              (toks ++ ["0x" +:+ hex (slice b (i + 3) (i + 3 + 20))]) } }.
Proof. lia. Qed.

Definition parse_v3_path_bytes (b : bytes) : list string :=
  let toks : list string := [] in
  let i := 0 in
  if bool_decide (len b < 20) then toks
  else
    let toks := toks ++ ["0x" +:+ hex (slice b i (i + 20))] in
    let i := i + 20 in
    v3_path_loop b i toks.

Definition decode_v3_exact (payload : bytes) (sel : string)
    : result (gmap string value * list string) :=
  let H := payload in
  let w := words H in
  let total := len H in
  ensure negb (bool_decide (len w < 5)) else V3StructTooShort;
  w0 ← index w 0;
  let path_off := u256 w0 in
  ensure is_offset_like path_off total else BadPathOffsetV3;
  '(ln, path_bytes) ← read_dyn H path_off;
  w1 ← index w 1;
  w2 ← index w 2;
  let fields : gmap string value :=
    <["deadline" := VInt (u256 w2)]> (<["recipient" := VStr (to_hex_addr w1)]> ∅) in
  w3 ← index w 3;
  w4 ← index w 4;
  let fields :=
    if bool_decide (sel = SEL_V3_EXACT_INPUT) then
      <["amountOutMin" := VInt (u256 w4)]> (<["amountIn" := VInt (u256 w3)]> fields)
    else
      <["amountInMax" := VInt (u256 w4)]> (<["amountOut" := VInt (u256 w3)]> fields) in
  let path_tokens := parse_v3_path_bytes path_bytes in
  Ok (fields, path_tokens).

(** * Vocabulary of the statements

    Definitions that the statements below use and the source does not
    have: the layouts behind the selector dispatch of [decode_v2], an
    encoder for head words, and the calldata of the examples. *)

(** ** Layouts of [decode_v2] *)

Definition v2_token_selectors : list string :=
  [SEL_V2_SWAP_EXACT_TOKENS_FOR_TOKENS; SEL_V2_SWAP_TOKENS_FOR_EXACT_TOKENS;
   SEL_V2_SWAP_EXACT_TOKENS_FOR_ETH].

Definition v2_eth_selectors : list string :=
  [SEL_V2_SWAP_EXACT_ETH_FOR_TOKENS; SEL_V2_SWAP_ETH_FOR_EXACT_TOKENS].

(** The layout that [decode_v2] picks for a selector: the argument index of
    the path offset and the number of head words it indexes. *)
Definition v2_layout (sel : string) : option (nat * nat) :=
  if bool_decide (sel ∈ v2_token_selectors) then Some (2%nat, 5%nat)
  else if bool_decide (sel ∈ v2_eth_selectors) then Some (1%nat, 4%nat)
  else None.

(** The 32-byte big-endian head word of an unsigned integer, for building
    calldata. *)
Definition abi_uint256 (n : Z) : bytes :=
  (λ k : nat, default x00 (Byte.of_N (Z.to_N ((n `div` 256 ^ (31 - Z.of_nat k)) `mod` 256))))
    <$> seq 0 32.

(** ** Packed V3 paths *)

(** The token that the parser reads at byte [p] of the path. *)
Definition v3_token_at (b : bytes) (p : Z) : string :=
  "0x" +:+ hex (slice b p (p + 20)).

(** ** Hexadecimal input *)

(** Strings of hexadecimal digits of even length. *)
Inductive hex_pairs : string → Prop :=
| hex_pairs_nil : hex_pairs ""
| hex_pairs_cons c d s :
    is_hex_digit c = true → is_hex_digit d = true → hex_pairs s →
    hex_pairs (String c (String d s)).

Fixpoint all_hex_digits (s : string) : bool :=
  match s with
  | "" => true
  | String c s' => is_hex_digit c && all_hex_digits s'
  end.

(** Following the words of the specification of [read_dyn], "the unsigned
    big-endian value" of a word: each byte weighs 256 times the byte after
    it, the last byte weighs 1. *)
Fixpoint big_endian_value (b : bytes) : Z :=
  match b with
  | [] => 0
  | x :: b' => Z.of_N (Byte.to_N x) * 256 ^ len b' + big_endian_value b'
  end.

(** The characters [0] to [9] and [a] to [f]. *)
Definition is_lower_hex_digit (c : ascii) : bool :=
  let n := N_of_ascii c in
  ((48 <=? n)%N && (n <=? 57)%N) || ((97 <=? n)%N && (n <=? 102)%N).

Fixpoint all_lower_hex (s : string) : bool :=
  match s with
  | "" => true
  | String c s' => is_lower_hex_digit c && all_lower_hex s'
  end.

(** The text of an address: [0x] followed by exactly 40 lower-case
    hexadecimal digits. *)
Definition is_address_text (t : string) : bool :=
  match t with
  | String "0" (String "x" d) => (String.length d =? 40)%nat && all_lower_hex d
  | _ => false
  end.

(** The text without the white space that [bytes.fromhex] skips. *)
Fixpoint remove_spaces (s : string) : string :=
  match s with
  | "" => ""
  | String c s' => if is_space c then remove_spaces s' else String c (remove_spaces s')
  end.

(** ** Encoded V3 paths *)

(** The packed path [token fee token ... fee token]: the first token, then
    one [(fee, token)] pair for every hop. *)
Definition encode_v3_path (t0 : bytes) (hops : list (bytes * bytes)) : bytes :=
  t0 ++ concat ((λ hop, hop.1 ++ hop.2) <$> hops).

Definition v3_hop_ok (hop : bytes * bytes) : Prop :=
  length hop.1 = 3%nat ∧ length hop.2 = 20%nat.

(** ** Calldata of the examples *)

(** Five head words [0, 0, 160, 0, 0] and a length word announcing two
    elements, with nothing behind it. *)
Definition calldata_path_cut_after_length : bytes :=
  abi_uint256 0 ++ abi_uint256 0 ++ abi_uint256 160 ++ abi_uint256 0 ++ abi_uint256 0 ++
  abi_uint256 2.

(** Five head words [0, 0, 160, 0, 0], a length word announcing two elements
    and one element only. *)
Definition calldata_path_cut_in_elements : bytes :=
  calldata_path_cut_after_length ++ abi_uint256 7.

(** Head words [32, 20, 0x0102..., 7, 9] and nothing else: the path offset
    points at the second head word. *)
Definition calldata_v3_path_in_head : bytes :=
  abi_uint256 32 ++ abi_uint256 20 ++
  [x01; x02; x03; x04; x05; x06; x07; x08; x09; x0a; x0b; x0c; x0d; x0e; x0f; x10;
   x11; x12; x13; x14; x15; x16; x17; x18; x19; x1a; x1b; x1c; x1d; x1e; x1f; x20] ++
  abi_uint256 7 ++ abi_uint256 9.

(** * Properties *)

(** ** Sequences, slices and words *)

Section slices.
Context {A : Type}.
Implicit Types l : list A.

Lemma len_nonneg l : 0 ≤ len l.
Proof. unfold len. lia. Qed.

Lemma len_app l1 l2 : len (l1 ++ l2) = len l1 + len l2.
Proof. unfold len. rewrite length_app. lia. Qed.

(** Inside the sequence a slice is the plain sub-list. *)
Lemma slice_in_range l i j :
  0 ≤ i → i ≤ j → j ≤ len l →
  slice l i j = take (Z.to_nat (j - i)) (drop (Z.to_nat i) l).
Proof.
  intros Hi Hij Hj. unfold slice, clamp_bound.
  assert ((i <? 0) = false) as -> by lia.
  assert ((j <? 0) = false) as -> by lia.
  rewrite !Z.min_l by lia. reflexivity.
Qed.

Lemma length_slice_in_range l i j :
  0 ≤ i → i ≤ j → j ≤ len l → len (slice l i j) = j - i.
Proof.
  intros Hi Hij Hj. rewrite slice_in_range by lia.
  unfold len in *. rewrite length_take, length_drop. lia.
Qed.

(** A slice that starts after the prefix [l1] reads the rest only. *)
Lemma slice_app_r l1 l2 i j :
  len l1 ≤ i → i ≤ j →
  slice (l1 ++ l2) i j = slice l2 (i - len l1) (j - len l1).
Proof.
  intros Hi Hij. unfold slice, clamp_bound. rewrite len_app.
  pose proof (len_nonneg l1). pose proof (len_nonneg l2).
  assert ((i <? 0) = false) as -> by lia.
  assert ((j <? 0) = false) as -> by lia.
  assert ((i - len l1 <? 0) = false) as -> by lia.
  assert ((j - len l1 <? 0) = false) as -> by lia.
  replace (Z.to_nat (Z.min i (len l1 + len l2)))
    with (length l1 + Z.to_nat (Z.min (i - len l1) (len l2)))%nat by (unfold len in *; lia).
  rewrite drop_app_add. f_equal. lia.
Qed.
End slices.

Lemma u256_nonneg b : 0 ≤ u256 b.
Proof.
  assert (∀ acc, 0 ≤ acc → 0 ≤ foldl (λ acc x, acc * 256 + Z.of_N (Byte.to_N x)) acc b) as Hfold.
  { induction b as [|x b IH]; intros acc Hacc; simpl; [done|]. apply IH. lia. }
  destruct b; simpl; [done|]. apply Hfold. lia.
Qed.

Lemma foldl_be_app (a b : bytes) acc :
  foldl (λ acc x, acc * 256 + Z.of_N (Byte.to_N x)) acc (a ++ b) =
  foldl (λ acc x, acc * 256 + Z.of_N (Byte.to_N x))
    (foldl (λ acc x, acc * 256 + Z.of_N (Byte.to_N x)) acc a) b.
Proof. apply foldl_app. Qed.

Lemma foldl_be_shift (b : bytes) acc :
  foldl (λ acc x, acc * 256 + Z.of_N (Byte.to_N x)) acc b =
  acc * 256 ^ len b + foldl (λ acc x, acc * 256 + Z.of_N (Byte.to_N x)) 0 b.
Proof.
  revert acc. induction b as [|x b IH]; intros acc.
  - simpl. change (len (@nil byte)) with 0. lia.
  - simpl. rewrite IH, (IH (0 * 256 + _)).
    replace (len (x :: b)) with (1 + len b) by (unfold len; simpl; lia).
    rewrite Z.pow_add_r by (pose proof (len_nonneg b); lia). lia.
Qed.

Lemma u256_fold (b : bytes) :
  u256 b = foldl (λ acc x, acc * 256 + Z.of_N (Byte.to_N x)) 0 b.
Proof. by destruct b. Qed.

Lemma u256_app_shift (a b : bytes) :
  u256 (a ++ b) = u256 a * 256 ^ len b + u256 b.
Proof. rewrite !u256_fold, foldl_be_app. apply foldl_be_shift. Qed.

(** [u256] computes the big-endian value of the specification. *)
Lemma u256_big_endian (b : bytes) : u256 b = big_endian_value b.
Proof.
  induction b as [|x b IH]; [done|].
  change (x :: b) with ([x] ++ b) at 1. rewrite u256_app_shift, IH.
  change (u256 [x]) with (0 * 256 + Z.of_N (Byte.to_N x)).
  cbn [big_endian_value]. lia.
Qed.

Lemma length_range3_32 n : 0 ≤ n → length (range3 0 n 32) = Z.to_nat ((n + 31) `div` 32).
Proof.
  intros Hn. unfold range3. rewrite length_fmap, length_seq. f_equal. f_equal. lia.
Qed.

Lemma length_words payload : len (words payload) = (len payload + 31) `div` 32.
Proof.
  unfold words, len at 1. rewrite length_fmap, length_range3_32 by apply len_nonneg.
  pose proof (len_nonneg payload).
  rewrite Z2Nat.id; [done|]. apply Z.div_pos; lia.
Qed.

(** The [k]-th word is the chunk that starts at byte [32 * k]; it is there
    as soon as the chunk holds one byte. *)
Lemma lookup_words payload (k : nat) :
  words payload !! k =
    if bool_decide (32 * Z.of_nat k < len payload)
    then Some (slice payload (32 * Z.of_nat k) (32 * Z.of_nat k + 32))
    else None.
Proof.
  pose proof (len_nonneg payload) as Hn.
  unfold words, range3. rewrite !list_lookup_fmap.
  replace (len payload - 0 + 32 - 1) with (len payload + 31) by lia.
  pose proof (Z.div_mod (len payload + 31) 32 ltac:(lia)) as Hdiv.
  pose proof (Z.mod_pos_bound (len payload + 31) 32 ltac:(lia)) as Hmod.
  case_bool_decide as Hk.
  - rewrite lookup_seq_lt by lia. simpl. do 3 f_equal; lia.
  - rewrite lookup_seq_ge by lia. done.
Qed.

(** ** [is_offset_like] *)

Lemma is_offset_like_true v total :
  is_offset_like v total = true ↔ v `mod` 32 = 0 ∧ 0 ≤ v ≤ Z.max 0 (total - 32).
Proof.
  unfold is_offset_like. rewrite andb_true_iff, !bool_decide_eq_true. tauto.
Qed.

(** C1 (as the source has it): [is_offset_like v total] holds exactly when
    [v] is a multiple of 32 with [0 <= v <= max(0, total - 32)].  So it
    rejects every negative, unaligned or past-the-bound value; for
    [total >= 32] it accepts exactly the aligned values from [0] to
    [total - 32], and for [total < 32] it accepts exactly [v = 0]. *)
Theorem is_offset_like_spec v total :
  (is_offset_like v total = true ↔ v `mod` 32 = 0 ∧ 0 ≤ v ≤ Z.max 0 (total - 32)) ∧
  (is_offset_like v total = true ↔
     (v `mod` 32 = 0 ∧ 0 ≤ v ≤ total - 32) ∨ (v = 0 ∧ total < 32)).
Proof.
  split; [apply is_offset_like_true|].
  rewrite is_offset_like_true. split.
  - intros [Hmod Hv]. destruct (decide (total < 32)); [right|left]; lia.
  - intros [[Hmod Hv]|[-> Ht]]; [lia|]. split; [done|lia].
Qed.

(** C1 (as the claim states it) fails on the empty buffer: offset [0] is
    accepted although [0 <= 0 <= 0 - 32] is false. *)
Lemma is_offset_like_accepts_zero_on_short_buffer :
  is_offset_like 0 0 = true ∧ ¬ (0 `mod` 32 = 0 ∧ 0 ≤ 0 ≤ 0 - 32).
Proof. split; [reflexivity|lia]. Qed.

(** ** [read_dyn] *)

(** The three outcomes of [read_dyn], each with its exact condition. *)
Lemma read_dyn_cases payload off :
  let ln := u256 (slice payload off (off + 32)) in
  read_dyn payload off =
    if bool_decide (off + 32 > len payload) then Raise DynamicHeadOutOfBounds
    else if bool_decide (off + 32 + ln > len payload) then Raise DynamicBodyTruncated
    else Ok (ln, slice payload (off + 32) (off + 32 + ln)).
Proof. unfold read_dyn. simpl. repeat case_bool_decide; reflexivity. Qed.

(** C4: [read_dyn payload off] raises "Dynamic head points out of bounds"
    exactly when [off + 32 > len payload]; otherwise, with [ln] the unsigned
    big-endian value of the word [payload[off:off+32]], it raises "Dynamic
    body truncated" exactly when [off + 32 + ln > len payload]; otherwise
    it returns [ln] with the slice [payload[off+32 : off+32+ln]].  For an
    offset inside the buffer the length word has 32 bytes and the content
    has [ln] bytes; the exact boundary [off + 32 + ln = len payload]
    succeeds. *)
Theorem read_dyn_spec payload off :
  let n := len payload in
  let ln := big_endian_value (slice payload off (off + 32)) in
  let content := slice payload (off + 32) (off + 32 + ln) in
  (read_dyn payload off = Raise DynamicHeadOutOfBounds ↔ off + 32 > n) ∧
  (read_dyn payload off = Raise DynamicBodyTruncated ↔ off + 32 ≤ n ∧ off + 32 + ln > n) ∧
  (read_dyn payload off = Ok (ln, content) ↔ off + 32 ≤ n ∧ off + 32 + ln ≤ n) ∧
  (∀ r, read_dyn payload off = Ok r → r = (ln, content)) ∧
  (0 ≤ off → off + 32 ≤ n → len (slice payload off (off + 32)) = 32) ∧
  (0 ≤ off → off + 32 + ln ≤ n → len content = ln) ∧
  (off + 32 + ln = n → read_dyn payload off = Ok (ln, content)).
Proof.
  intros n ln content. pose proof (read_dyn_cases payload off) as Hcases.
  simpl in Hcases. rewrite u256_big_endian in Hcases. fold ln content n in Hcases.
  pose proof (u256_nonneg (slice payload off (off + 32))) as Hln.
  rewrite u256_big_endian in Hln. fold ln in Hln.
  assert (0 ≤ n) as Hn by apply len_nonneg.
  split_and!.
  - rewrite Hcases. repeat case_bool_decide; split; (done || lia).
  - rewrite Hcases. repeat case_bool_decide; split; (done || lia).
  - rewrite Hcases. repeat case_bool_decide; split; (done || lia).
  - intros r. rewrite Hcases. repeat case_bool_decide; congruence.
  - intros Hoff Hle. rewrite length_slice_in_range; lia.
  - intros Hoff Hle. unfold content. rewrite length_slice_in_range; lia.
  - intros Heq. rewrite Hcases. by rewrite !bool_decide_eq_false_2 by lia.
Qed.

(** C4 at the boundary: behind a length word of 3, exactly three bytes are
    read back as the content, and with two bytes only the body is
    truncated. *)
Lemma read_dyn_spec_witness :
  read_dyn (replicate 31 x00 ++ [x03; x0a; x0b; x0c]) 0 = Ok (3, [x0a; x0b; x0c]) ∧
  read_dyn (replicate 31 x00 ++ [x03; x0a; x0b]) 0 = Raise DynamicBodyTruncated.
Proof.
  split.
  - destruct (read_dyn_spec (replicate 31 x00 ++ [x03; x0a; x0b; x0c]) 0)
      as (_ & _ & _ & _ & _ & _ & Hboundary).
    apply Hboundary. reflexivity.
  - destruct (read_dyn_spec (replicate 31 x00 ++ [x03; x0a; x0b]) 0)
      as (_ & Htruncated & _).
    apply Htruncated. vm_compute. split; [discriminate|reflexivity].
Defined.

(** The boundary of C4 on a concrete buffer: a length word of 3 followed by
    exactly three bytes is read back, and losing the last byte is "Dynamic
    body truncated". *)
Example read_dyn_boundary :
  let head := replicate 31 x00 ++ [x03] in
  read_dyn (head ++ [x0a; x0b; x0c]) 0 = Ok (3, [x0a; x0b; x0c]) ∧
  read_dyn (head ++ [x0a; x0b]) 0 = Raise DynamicBodyTruncated ∧
  read_dyn (replicate 31 x00) 0 = Raise DynamicHeadOutOfBounds.
Proof. vm_compute. done. Qed.

(** ** [parse_v3_path_bytes] *)

Lemma range_nonpos n : n ≤ 0 → range n = [].
Proof. intros Hn. unfold range. by replace (Z.to_nat n) with 0%nat by lia. Qed.

Lemma fmap_range_succ {A : Type} (f : Z → A) n :
  0 ≤ n → f <$> range (1 + n) = f 0 :: ((λ k, f (1 + k)) <$> range n).
Proof.
  intros Hn. unfold range.
  replace (Z.to_nat (1 + n)) with (S (Z.to_nat n)) by lia.
  simpl. f_equal. rewrite <- seq_shift, <- !list_fmap_compose.
  apply list_fmap_ext. intros _ k _. simpl. f_equal. lia.
Qed.

Lemma length_range n : length (range n) = Z.to_nat n.
Proof. unfold range. by rewrite length_fmap, length_seq. Qed.

(** The loop entered at [i] appends one token for every whole
    [fee(3) + token(20)] group that is left after [i]. *)
Lemma v3_path_loop_spec b i toks :
  v3_path_loop b i toks =
    toks ++ ((λ k, v3_token_at b (i + 3 + 23 * k)) <$> range ((len b - i) `div` 23)).
Proof.
  funelim (v3_path_loop b i toks).
  - (* [i >= len b]: the loop is not entered *)
    rewrite range_nonpos; [by rewrite app_nil_r|].
    apply Z.div_le_upper_bound; lia.
  - (* [i + 3 + 20 > len b]: break *)
    rewrite Z.div_small by lia. by rewrite app_nil_r.
  - (* one more token, then the loop again *)
    match goal with IH : v3_path_loop _ _ _ = _ ++ _ |- _ => rewrite IH end.
    replace (len b - i) with (1 * 23 + (len b - (i + 3 + 20))) by lia.
    rewrite Z.div_add_l by lia.
    rewrite fmap_range_succ by (apply Z.div_pos; lia).
    rewrite <- app_assoc. simpl. f_equal. f_equal.
    + unfold v3_token_at. do 3 f_equal; lia.
    + apply list_fmap_ext. intros _ k _. f_equal. lia.
Qed.

(** What [parse_v3_path_bytes] returns, in closed form. *)
Lemma parse_v3_path_bytes_eq b :
  parse_v3_path_bytes b =
    if bool_decide (len b < 20) then []
    else (λ k, v3_token_at b (23 * k)) <$> range (1 + (len b - 20) `div` 23).
Proof.
  unfold parse_v3_path_bytes. case_bool_decide as Hlen; [done|].
  rewrite v3_path_loop_spec, fmap_range_succ by (apply Z.div_pos; lia).
  simpl. f_equal. apply list_fmap_ext. intros _ k _. f_equal. lia.
Qed.

(** C6: [parse_v3_path_bytes] is a total function; on fewer than 20 bytes
    it returns the empty list, and otherwise exactly
    [1 + (len b - 20) div 23] tokens, the [k]-th being ["0x"] followed by
    the hexadecimal text of the 20 bytes at position [23 * k]. *)
Theorem parse_v3_path_bytes_spec b :
  parse_v3_path_bytes b =
    (if bool_decide (len b < 20) then []
     else (λ k, "0x" +:+ hex (slice b (23 * k) (23 * k + 20))) <$>
            range (1 + (len b - 20) `div` 23)) ∧
  len (parse_v3_path_bytes b) =
    (if bool_decide (len b < 20) then 0 else 1 + (len b - 20) `div` 23).
Proof.
  rewrite parse_v3_path_bytes_eq. case_bool_decide as Hlen; [done|].
  split; [done|].
  unfold len at 1. rewrite length_fmap, length_range.
  assert (0 ≤ (len b - 20) `div` 23) by (apply Z.div_pos; lia). lia.
Qed.

(** The inputs that C6 names: a single token; three tokens with two fees;
    a token followed by a fee and an incomplete token, whose tail is
    dropped; and a path too short for one token. *)
Example parse_v3_path_bytes_examples :
  let t0 := replicate 20 x11 in
  let t1 := replicate 20 x22 in
  let t2 := replicate 20 x33 in
  let fee := [x00; x0b; xb8] in
  parse_v3_path_bytes t0 = ["0x" +:+ hex t0] ∧
  parse_v3_path_bytes (t0 ++ fee ++ t1 ++ fee ++ t2) =
    ["0x" +:+ hex t0; "0x" +:+ hex t1; "0x" +:+ hex t2] ∧
  parse_v3_path_bytes (t0 ++ fee) = ["0x" +:+ hex t0] ∧
  parse_v3_path_bytes (t0 ++ fee ++ replicate 19 x22) = ["0x" +:+ hex t0] ∧
  parse_v3_path_bytes (replicate 19 x11) = [].
Proof. vm_compute. done. Qed.

(** ** [as_bytes] *)

(** What one hexadecimal digit goes through in [as_bytes]: lower-casing
    keeps it a digit (and not white space), and printing its value gives the
    lower-case digit back. *)
Lemma hex_digit_lower c :
  is_hex_digit c = true →
  is_space (lower_char c) = false ∧
  ∃ v, digit_value (lower_char c) = Some v ∧ (v < 16)%N ∧ hex_digit v = lower_char c.
Proof.
  destruct c as [[] [] [] [] [] [] [] []]; vm_compute; intros Hc;
    try discriminate Hc; (split; [reflexivity|]); eexists; (split; [reflexivity|]); done.
Qed.

Lemma byte_of_digits_to_N hi lo :
  (hi < 16)%N → (lo < 16)%N → Byte.to_N (byte_of_digits hi lo) = (16 * hi + lo)%N.
Proof.
  intros Hhi Hlo. unfold byte_of_digits.
  destruct (Byte.of_N (16 * hi + lo)) as [x|] eqn:Hx.
  - by apply Byte.to_of_N.
  - apply Byte.of_N_None_iff in Hx. lia.
Qed.

Lemma hex_byte_of_digits hi lo b :
  (hi < 16)%N → (lo < 16)%N →
  hex (byte_of_digits hi lo :: b) = String (hex_digit hi) (String (hex_digit lo) (hex b)).
Proof.
  intros Hhi Hlo. simpl. rewrite byte_of_digits_to_N by done.
  replace ((16 * hi + lo) / 16)%N with hi by (apply N.div_unique with lo; lia).
  replace ((16 * hi + lo) mod 16)%N with lo by (apply N.mod_unique with hi; lia).
  done.
Qed.

Lemma hex_pairs_intro s :
  Nat.even (String.length s) = true → all_hex_digits s = true → hex_pairs s.
Proof.
  assert (∀ n s, (String.length s ≤ n)%nat →
            Nat.even (String.length s) = true → all_hex_digits s = true → hex_pairs s) as Hn.
  { clear s. induction n as [|n IH]; intros s Hle Heven Hall.
    - destruct s; [constructor|simpl in Hle; lia].
    - destruct s as [|c [|d s]]; [constructor|discriminate Heven|].
      simpl in Hle, Heven, Hall.
      apply andb_true_iff in Hall as [Hc Hall]. apply andb_true_iff in Hall as [Hd Hall].
      constructor; [done..|]. apply IH; [lia|done..]. }
  by apply (Hn (String.length s)).
Qed.

Lemma length_lower s : String.length (lower s) = String.length s.
Proof. induction s; simpl; congruence. Qed.

Lemma hex_pairs_length_even s : hex_pairs s → Z.of_nat (String.length s) `mod` 2 = 0.
Proof.
  induction 1 as [|c d s _ _ _ IH]; [done|]. simpl.
  replace (Z.of_nat (S (S (String.length s)))) with (Z.of_nat (String.length s) + 1 * 2) by lia.
  by rewrite Z.mod_add.
Qed.

(** [bytes.fromhex] on lower-cased digit pairs succeeds, and the bytes print
    back as the lower-cased text. *)
Lemma fromhex_at_lower pos s :
  hex_pairs s → ∃ b, fromhex_at pos (lower s) = inr b ∧ hex b = lower s.
Proof.
  intros Hs. revert pos. induction Hs as [|c d s Hc Hd _ IH]; intros pos.
  - by exists [].
  - destruct (hex_digit_lower c Hc) as (Hsp & hi & Hhi & Hhi16 & Hhic).
    destruct (hex_digit_lower d Hd) as (_ & lo & Hlo & Hlo16 & Hloc).
    destruct (IH (S (S pos))) as (b & Hb & Hhex).
    exists (byte_of_digits hi lo :: b). simpl lower. simpl fromhex_at.
    rewrite Hsp, Hhi, Hlo, Hb. split; [done|].
    rewrite hex_byte_of_digits by done. congruence.
Qed.

(** A character outside ASCII is neither white space nor a digit. *)
Lemma non_ascii_char c :
  (128 <=? N_of_ascii c)%N = true → is_space c = false ∧ digit_value c = None.
Proof. destruct c as [[] [] [] [] [] [] [] []]; by vm_compute. Qed.

(** A text that the scan of [bytes.fromhex] accepts is ASCII. *)
Lemma fromhex_at_inr_ascii s : ∀ pos pos' b,
  fromhex_at pos s = inr b → first_non_ascii_at pos' s = None.
Proof.
  assert (∀ n s, (String.length s ≤ n)%nat → ∀ pos pos' b,
            fromhex_at pos s = inr b → first_non_ascii_at pos' s = None) as Hn.
  { clear s. induction n as [|n IH]; intros s Hlen pos pos' b Hb.
    - destruct s; [done|simpl in Hlen; lia].
    - destruct s as [|c s]; [done|]. simpl in Hlen, Hb. simpl.
      destruct (128 <=? N_of_ascii c)%N eqn:Hc.
      { destruct (non_ascii_char c Hc) as [Hsp Hd]. by rewrite Hsp, Hd in Hb. }
      destruct (is_space c); [by apply (IH s ltac:(lia) _ _ _ Hb)|].
      destruct (digit_value c) as [hi|]; [|done].
      destruct s as [|d s]; [done|]. simpl in Hlen. simpl.
      destruct (128 <=? N_of_ascii d)%N eqn:Hd.
      { destruct (non_ascii_char d Hd) as [_ Hdd]. by rewrite Hdd in Hb. }
      destruct (digit_value d) as [lo|]; [|done].
      destruct (fromhex_at (S (S pos)) s) as [e|b'] eqn:Hrest; [done|].
      by apply (IH s ltac:(lia) _ _ _ Hrest). }
  intros pos pos' b. by apply (Hn (String.length s)).
Qed.

Lemma fromhex_of_scan s b : fromhex_at 0 s = inr b → fromhex s = inr b.
Proof. intros Hb. unfold fromhex. by rewrite (fromhex_at_inr_ascii _ _ _ _ Hb). Qed.

Lemma fromhex_inr_scan s b : fromhex s = inr b → fromhex_at 0 s = inr b.
Proof. unfold fromhex. by destruct (first_non_ascii_at 0 s). Qed.

Lemma length_hex b : String.length (hex b) = (2 * length b)%nat.
Proof. induction b as [|x b IH]; simpl; [done|]. rewrite IH. lia. Qed.

Lemma substring_all s : String.substring 0 (String.length s) s = s.
Proof. induction s; simpl; congruence. Qed.

Lemma strip0x_0x s : strip0x ("0x" +:+ s) = s.
Proof.
  unfold strip0x, startswith. simpl.
  destruct s; simpl; [done|]. f_equal. apply substring_all.
Qed.

(** The error position of [bytes.fromhex]: on ASCII text it is the
    character that is not a digit; on other text it is the first character
    that is not ASCII, even behind an earlier one that is not a digit. *)
Example fromhex_error_positions :
  fromhex "zz" = inl (fromhex_error 0) ∧
  fromhex (String "z" (String (ascii_of_N 233) "")) = inl (fromhex_error 1) ∧
  fromhex "0g" = inl (fromhex_error 1).
Proof. by vm_compute. Qed.

(** C10: for a non-empty, even-length string [s] of hexadecimal digits,
    [as_bytes ("0x" + s)] returns the bytes whose hexadecimal text is [s]
    lower-cased, while [as_bytes ("0X" + s)] raises "Invalid hex: ...": the
    upper-case prefix is not stripped, and [x] is not a digit. *)
Theorem as_bytes_prefix_case s :
  s ≠ "" → Nat.even (String.length s) = true → all_hex_digits s = true →
  (∃ b, as_bytes ("0x" +:+ s) = Ok b ∧ hex b = lower s ∧ len b = Z.of_nat (String.length s) `div` 2) ∧
  strip0x ("0X" +:+ s) = "0X" +:+ s ∧
  as_bytes ("0X" +:+ s) = Raise (InvalidHex (fromhex_error 1)).
Proof.
  intros _ Heven Hall. pose proof (hex_pairs_intro s Heven Hall) as Hs.
  split_and!.
  - destruct (fromhex_at_lower 0 s Hs) as (b & Hb & Hhex).
    exists b. unfold as_bytes. rewrite strip0x_0x, length_lower.
    rewrite bool_decide_eq_true_2 by by apply hex_pairs_length_even.
    rewrite (fromhex_of_scan _ _ Hb). split_and!; [done..|].
    rewrite <- (length_lower s), <- Hhex, length_hex. unfold len.
    replace (Z.of_nat (2 * length b)) with (Z.of_nat (length b) * 2) by lia.
    by rewrite Z.div_mul.
  - reflexivity.
  - unfold as_bytes. change (strip0x ("0X" +:+ s)) with ("0X" +:+ s).
    change (lower ("0X" +:+ s)) with ("0x" +:+ lower s).
    rewrite bool_decide_eq_true_2.
    { destruct (fromhex_at_lower 2 s Hs) as (b & Hb & _).
      unfold fromhex.
      change (first_non_ascii_at 0 ("0x" +:+ lower s))
        with (first_non_ascii_at 2 (lower s)).
      by rewrite (fromhex_at_inr_ascii _ _ 2%nat _ Hb). }
    change (String.length ("0x" +:+ lower s)) with (S (S (String.length (lower s)))).
    rewrite length_lower.
    replace (Z.of_nat (S (S (String.length s)))) with (Z.of_nat (String.length s) + 1 * 2) by lia.
    rewrite Z.mod_add by lia. by apply hex_pairs_length_even.
Qed.

(** C10 on the digits [Ab01]. *)
Lemma as_bytes_prefix_case_witness :
  (∃ b, as_bytes "0xAb01" = Ok b ∧ hex b = "ab01" ∧ len b = 2) ∧
  strip0x "0XAb01" = "0XAb01" ∧
  as_bytes "0XAb01" = Raise (InvalidHex (fromhex_error 1)).
Proof. apply (as_bytes_prefix_case "Ab01"); [discriminate|reflexivity|reflexivity]. Defined.

(** ** [decode_v2] *)

Lemma index_lookup {A : Type} (w : list A) k x : w !! k = Some x → index w k = Ok x.
Proof. unfold index. by intros ->. Qed.

Lemma index_lt {A : Type} (w : list A) k :
  (k < length w)%nat → ∃ x, index w k = Ok x.
Proof.
  intros Hk. destruct (lookup_lt_is_Some_2 w k Hk) as [x Hx].
  exists x. by apply index_lookup.
Qed.

(** A path offset that passed the check, read from a head word other than
    the first, leaves room for its length word. *)
Lemma offset_like_head_in_bounds payload (k : nat) wd :
  (0 < k)%nat → words payload !! k = Some wd →
  is_offset_like (u256 wd) (len payload) = true →
  0 ≤ u256 wd ∧ u256 wd + 32 ≤ len payload.
Proof.
  intros Hk Hwd Hoff. rewrite lookup_words in Hwd.
  case_bool_decide; [|done]. apply is_offset_like_true in Hoff. lia.
Qed.

(** [decode_path_at_arg] after the offset check, by what [read_dyn] and the
    element count give. *)
Lemma decode_path_at_arg_checked H w total k wd :
  w !! k = Some wd → is_offset_like (u256 wd) total = true →
  let off := u256 wd in
  let ln := u256 (slice H off (off + 32)) in
  decode_path_at_arg H w total k =
    if bool_decide (off + 32 > len H) then Raise DynamicHeadOutOfBounds
    else if bool_decide (off + 32 + ln > len H) then Raise DynamicBodyTruncated
    else if bool_decide (ln = 0) then Ok []
    else if bool_decide (off + 32 + ln * 32 > len H) then Raise PathTruncated
    else Ok ((λ i, to_hex_addr (slice H (off + 32 + i * 32) (off + 32 + (i + 1) * 32)))
               <$> range ln).
Proof.
  intros Hwd Hoff. unfold decode_path_at_arg.
  rewrite (index_lookup _ _ _ Hwd). simpl. rewrite Hoff, read_dyn_cases. simpl.
  repeat case_bool_decide; simpl; try done; by repeat case_bool_decide.
Qed.

(** [decode_v2] up to the path, for the two layouts. *)
Lemma decode_v2_path_error payload sel k nhead wd e :
  v2_layout sel = Some (k, nhead) → words payload !! k = Some wd →
  decode_path_at_arg payload (words payload) (len payload) k = Raise e →
  decode_v2 payload sel = Raise e.
Proof.
  unfold v2_layout, decode_v2. intros Hsel Hwd Hpath.
  fold v2_token_selectors v2_eth_selectors.
  assert (k < length (words payload))%nat as Hk by by eapply lookup_lt_Some.
  repeat case_bool_decide; simplify_eq.
  - destruct (index_lt (words payload) 0 ltac:(lia)) as [w0 ->].
    destruct (index_lt (words payload) 1 ltac:(lia)) as [w1 ->].
    simpl. by rewrite Hpath.
  - destruct (index_lt (words payload) 0 ltac:(lia)) as [w0 ->].
    simpl. by rewrite Hpath.
Qed.

Lemma decode_v2_path_ok payload sel k nhead toks :
  v2_layout sel = Some (k, nhead) → (nhead ≤ length (words payload))%nat →
  decode_path_at_arg payload (words payload) (len payload) k = Ok toks →
  ∃ fields, decode_v2 payload sel = Ok (fields, toks).
Proof.
  unfold v2_layout, decode_v2. intros Hsel Hhead Hpath.
  fold v2_token_selectors v2_eth_selectors.
  repeat case_bool_decide; simplify_eq.
  - destruct (index_lt (words payload) 0 ltac:(lia)) as [w0 ->].
    destruct (index_lt (words payload) 1 ltac:(lia)) as [w1 ->].
    destruct (index_lt (words payload) 3 ltac:(lia)) as [w3 ->].
    destruct (index_lt (words payload) 4 ltac:(lia)) as [w4 ->].
    simpl. rewrite Hpath. simpl. eauto.
  - destruct (index_lt (words payload) 0 ltac:(lia)) as [w0 ->].
    destruct (index_lt (words payload) 2 ltac:(lia)) as [w2 ->].
    destruct (index_lt (words payload) 3 ltac:(lia)) as [w3 ->].
    simpl. rewrite Hpath. simpl. eauto.
Qed.

(** C5 (as the source has it): for a recognized V2 selector whose path-offset
    word passes the offset check, a declared element count [N] with
    [off + 32 + N * 32 > len payload] makes [decode_v2] fail; the error is
    "path[] truncated" when [N] bytes still fit after the length word, and
    "Dynamic body truncated", raised by [read_dyn] before the element check,
    when they do not. *)
Theorem decode_v2_path_truncated payload sel k nhead wd :
  v2_layout sel = Some (k, nhead) → words payload !! k = Some wd →
  is_offset_like (u256 wd) (len payload) = true →
  let off := u256 wd in
  let N := u256 (slice payload off (off + 32)) in
  off + 32 + N * 32 > len payload →
  decode_v2 payload sel =
    Raise (if bool_decide (off + 32 + N > len payload)
           then DynamicBodyTruncated else PathTruncated).
Proof.
  intros Hsel Hwd Hoff off N Hover.
  assert (0 < k)%nat as Hk.
  { unfold v2_layout in Hsel. repeat case_bool_decide; simplify_eq; lia. }
  destruct (offset_like_head_in_bounds payload k wd Hk Hwd Hoff) as [Hoff0 Hhead].
  apply (decode_v2_path_error payload sel k nhead wd); [done..|].
  rewrite (decode_path_at_arg_checked _ _ _ _ _ Hwd Hoff). simpl. fold off N.
  rewrite (bool_decide_eq_false_2 (off + 32 > _)) by lia.
  case_bool_decide; [done|].
  rewrite bool_decide_eq_false_2 by lia. by rewrite bool_decide_eq_true_2.
Qed.

(** C5 on a buffer that has one of its two announced elements: the element
    check of [decode_path_at_arg] fails with "path[] truncated". *)
Lemma decode_v2_path_truncated_witness :
  decode_v2 calldata_path_cut_in_elements SEL_V2_SWAP_EXACT_TOKENS_FOR_TOKENS =
    Raise PathTruncated.
Proof.
  apply (decode_v2_path_truncated calldata_path_cut_in_elements
           SEL_V2_SWAP_EXACT_TOKENS_FOR_TOKENS 2 5 (abi_uint256 160));
    [reflexivity|reflexivity|reflexivity|vm_compute; reflexivity].
Defined.

(** C5 (as the claim states it) fails when the buffer ends right after the
    length word: the path-offset word [160] passes the check, the two
    announced elements overrun the 192 bytes, and the error is "Dynamic body
    truncated", not "path[] truncated". *)
Lemma decode_v2_path_overrun_not_path_truncated :
  let payload := calldata_path_cut_after_length in
  let off := 160 in
  v2_layout SEL_V2_SWAP_EXACT_TOKENS_FOR_TOKENS = Some (2%nat, 5%nat) ∧
  words payload !! 2%nat = Some (abi_uint256 off) ∧
  u256 (abi_uint256 off) = off ∧
  is_offset_like off (len payload) = true ∧
  u256 (slice payload off (off + 32)) = 2 ∧
  off + 32 + 2 * 32 > len payload ∧
  decode_v2 payload SEL_V2_SWAP_EXACT_TOKENS_FOR_TOKENS = Raise DynamicBodyTruncated ∧
  decode_v2 payload SEL_V2_SWAP_EXACT_TOKENS_FOR_TOKENS ≠ Raise PathTruncated.
Proof. vm_compute. split_and!; (reflexivity || discriminate). Qed.

(** C8 (as the source has it): for a recognized V2 selector and a buffer
    that holds the whole head of the layout (five 32-byte words for the token
    variants, four for the ETH variants), if the path-offset word passes the
    offset check and the length word at that offset is 0, [decode_v2]
    succeeds with an empty path token list. *)
Theorem decode_v2_empty_path payload sel k nhead wd :
  v2_layout sel = Some (k, nhead) → 32 * Z.of_nat nhead ≤ len payload →
  words payload !! k = Some wd →
  is_offset_like (u256 wd) (len payload) = true →
  u256 (slice payload (u256 wd) (u256 wd + 32)) = 0 →
  ∃ fields, decode_v2 payload sel = Ok (fields, []).
Proof.
  intros Hsel Hhead Hwd Hoff Hzero.
  assert (0 < k)%nat as Hk.
  { unfold v2_layout in Hsel. repeat case_bool_decide; simplify_eq; lia. }
  destruct (offset_like_head_in_bounds payload k wd Hk Hwd Hoff) as [Hoff0 Hin].
  apply (decode_v2_path_ok payload sel k nhead); [done| |].
  - apply Nat2Z.inj_le. fold (len (words payload)). rewrite length_words.
    apply Z.div_le_lower_bound; lia.
  - rewrite (decode_path_at_arg_checked _ _ _ _ _ Hwd Hoff). simpl. rewrite Hzero.
    by rewrite !bool_decide_eq_false_2 by lia.
Qed.

(** C8 on four zero words and an ETH variant: the path offset (argument 1)
    is 0, the length word at offset 0 is 0, and the path is empty. *)
Lemma decode_v2_empty_path_witness :
  ∃ fields, decode_v2 (replicate 128 x00) SEL_V2_SWAP_EXACT_ETH_FOR_TOKENS = Ok (fields, []).
Proof.
  apply (decode_v2_empty_path (replicate 128 x00) SEL_V2_SWAP_EXACT_ETH_FOR_TOKENS
           1 4 (replicate 32 x00));
    [reflexivity|vm_compute; discriminate|reflexivity|reflexivity|reflexivity].
Defined.

(** C8 (as the claim states it) fails on three zero words: the path-offset
    word (argument 2) is 0 and passes the check, the length word at offset 0
    is 0, and yet [decode_v2] does not succeed: it stops at [w[3]] with an
    [IndexError]. *)
Lemma decode_v2_empty_path_short_head :
  let payload := replicate 96 x00 in
  v2_layout SEL_V2_SWAP_EXACT_TOKENS_FOR_TOKENS = Some (2%nat, 5%nat) ∧
  words payload !! 2%nat = Some (replicate 32 x00) ∧
  is_offset_like (u256 (replicate 32 x00)) (len payload) = true ∧
  u256 (slice payload 0 32) = 0 ∧
  decode_path_at_arg payload (words payload) (len payload) 2 = Ok [] ∧
  decode_v2 payload SEL_V2_SWAP_EXACT_TOKENS_FOR_TOKENS = Raise IndexError.
Proof. vm_compute. split_and!; reflexivity. Qed.

(** *** Buffers made of whole words *)

Lemma slice_app_l_exact {A : Type} (l1 l2 : list A) :
  slice (l1 ++ l2) 0 (len l1) = l1.
Proof.
  pose proof (len_nonneg l1). pose proof (len_nonneg l2).
  rewrite slice_in_range by (rewrite ?len_app; lia).
  replace (Z.to_nat (len l1 - 0)) with (length l1) by (unfold len; lia).
  change (Z.to_nat 0) with 0%nat. rewrite drop_0. apply take_app_length.
Qed.

Lemma words_app_word c payload :
  length c = 32%nat → words (c ++ payload) = c :: words payload.
Proof.
  intros Hc. assert (len c = 32) as Hlc by (unfold len; lia).
  pose proof (len_nonneg payload).
  apply list_eq. intros [|k].
  - rewrite lookup_words, len_app, bool_decide_eq_true_2 by lia.
    simpl. f_equal.
    replace (32 * Z.of_nat 0 + 32) with (len c) by lia.
    replace (32 * Z.of_nat 0) with 0 by lia. apply slice_app_l_exact.
  - simpl. rewrite !lookup_words, len_app.
    rewrite slice_app_r by lia. rewrite Hlc.
    repeat case_bool_decide; try lia; [|done]. do 2 f_equal; lia.
Qed.

(** A buffer built from 32-byte words splits back into these words. *)
Lemma words_concat (cs : list bytes) :
  Forall (λ c, length c = 32%nat) cs → words (concat cs) = cs.
Proof.
  induction 1 as [|c cs Hc _ IH]; [done|].
  simpl. by rewrite words_app_word, IH.
Qed.

Lemma len_concat_words (cs : list bytes) :
  Forall (λ c, length c = 32%nat) cs → len (concat cs) = 32 * len cs.
Proof.
  induction 1 as [|c cs Hc _ IH]; [done|].
  simpl. rewrite len_app, IH. unfold len. simpl. lia.
Qed.

Lemma slice_concat_word (cs : list bytes) (k : nat) c :
  Forall (λ c, length c = 32%nat) cs → cs !! k = Some c →
  slice (concat cs) (32 * Z.of_nat k) (32 * Z.of_nat k + 32) = c.
Proof.
  intros Hcs Hk. pose proof (lookup_words (concat cs) k) as Hw.
  rewrite words_concat, Hk in Hw by done. by case_bool_decide; simplify_eq.
Qed.

(** [decode_v2] on a token variant whose five head words are there and
    whose path decodes. *)
Lemma decode_v2_token_ok payload sel w0 w1 w3 w4 toks :
  sel ∈ v2_token_selectors →
  words payload !! 0%nat = Some w0 → words payload !! 1%nat = Some w1 →
  words payload !! 3%nat = Some w3 → words payload !! 4%nat = Some w4 →
  decode_path_at_arg payload (words payload) (len payload) 2 = Ok toks →
  decode_v2 payload sel =
    Ok (<["deadline" := VInt (u256 w4)]> (<["to" := VStr (to_hex_addr w3)]>
          (<["amount1" := VInt (u256 w1)]> (<["amount0" := VInt (u256 w0)]> ∅))), toks).
Proof.
  intros Hsel H0 H1 H3 H4 Hpath. unfold decode_v2.
  fold v2_token_selectors. rewrite bool_decide_eq_true_2 by done.
  rewrite (index_lookup _ _ _ H0), (index_lookup _ _ _ H1),
    (index_lookup _ _ _ H3), (index_lookup _ _ _ H4).
  simpl. by rewrite Hpath.
Qed.

(** C7: selector [38ed1739] with head words [amountIn = 1000],
    [amountOutMin = 0], [pathOffset = 160], [to], [deadline = 0], followed at
    byte 160 by a length word of 2 and the address words [A] and [B],
    decodes to [amount0 = 1000], [amount1 = 0], [to], [deadline = 0] and the
    path [[A; B]]. *)
Theorem decode_v2_swap_exact_tokens_for_tokens (to A B : bytes) :
  length to = 32%nat → length A = 32%nat → length B = 32%nat →
  let payload :=
    abi_uint256 1000 ++ abi_uint256 0 ++ abi_uint256 160 ++ to ++ abi_uint256 0 ++
    abi_uint256 2 ++ A ++ B in
  let fields : gmap string value :=
    <["deadline" := VInt 0]> (<["to" := VStr (to_hex_addr to)]>
      (<["amount1" := VInt 0]> (<["amount0" := VInt 1000]> ∅))) in
  decode_v2 payload "38ed1739" = Ok (fields, [to_hex_addr A; to_hex_addr B]) ∧
  fields !! "amount0" = Some (VInt 1000) ∧
  fields !! "amount1" = Some (VInt 0) ∧
  fields !! "to" = Some (VStr (to_hex_addr to)) ∧
  fields !! "deadline" = Some (VInt 0).
Proof.
  intros Hto HA HB payload fields.
  split; [|unfold fields; split_and!; by simplify_map_eq].
  set (cs := [abi_uint256 1000; abi_uint256 0; abi_uint256 160; to; abi_uint256 0;
              abi_uint256 2; A; B]).
  assert (Forall (λ c, length c = 32%nat) cs) as Hcs by (repeat constructor; done).
  assert (payload = concat cs) as Hp.
  { unfold payload, cs. cbn [concat]. by rewrite app_nil_r. }
  assert (words payload = cs) as Hw by (rewrite Hp; by apply words_concat).
  assert (len payload = 256) as Hlen by (rewrite Hp, len_concat_words; done).
  assert (∀ (k : nat) c, cs !! k = Some c →
            slice payload (32 * Z.of_nat k) (32 * Z.of_nat k + 32) = c) as Hslice.
  { intros k c Hk. rewrite Hp. by apply slice_concat_word. }
  assert (u256 (abi_uint256 160) = 160) as H160 by (vm_compute; done).
  assert (u256 (abi_uint256 2) = 2) as H2 by (vm_compute; done).
  pose proof (decode_v2_token_ok payload "38ed1739" (abi_uint256 1000) (abi_uint256 0)
                to (abi_uint256 0) [to_hex_addr A; to_hex_addr B]) as Hdec.
  rewrite Hdec; [done|by left|rewrite Hw; done..|].
  rewrite (decode_path_at_arg_checked _ _ _ _ (abi_uint256 160));
    [|by rewrite Hw|by rewrite H160, Hlen].
  cbv zeta. rewrite H160, Hlen.
  assert (slice payload 160 (160 + 32) = abi_uint256 2) as ->
    by exact (Hslice 5%nat _ eq_refl).
  rewrite H2, !bool_decide_eq_false_2 by lia.
  change (range 2) with [0; 1]. cbn [fmap list_fmap].
  assert (slice payload (160 + 32 + 0 * 32) (160 + 32 + (0 + 1) * 32) = A) as ->
    by exact (Hslice 6%nat _ eq_refl).
  assert (slice payload (160 + 32 + 1 * 32) (160 + 32 + (1 + 1) * 32) = B) as ->
    by exact (Hslice 7%nat _ eq_refl).
  done.
Qed.

(** C7 with the recipient [0xaa...aa] and the path [0x01...01], [0x02...02]. *)
Lemma decode_v2_swap_exact_tokens_for_tokens_witness :
  let to := replicate 12 x00 ++ replicate 20 xaa in
  let A := replicate 12 x00 ++ replicate 20 x01 in
  let B := replicate 12 x00 ++ replicate 20 x02 in
  ∃ fields,
    decode_v2 (abi_uint256 1000 ++ abi_uint256 0 ++ abi_uint256 160 ++ to ++
               abi_uint256 0 ++ abi_uint256 2 ++ A ++ B) "38ed1739" =
      Ok (fields, ["0x0101010101010101010101010101010101010101";
                   "0x0202020202020202020202020202020202020202"]) ∧
    fields !! "amount1" = Some (VInt 0).
Proof.
  intros to A B.
  destruct (decode_v2_swap_exact_tokens_for_tokens to A B) as (Hdec & _ & Hmin & _);
    [reflexivity..|].
  eexists. split; [exact Hdec|exact Hmin].
Defined.

(** C2, at the inputs where the source departs from it.  [decode_v2] has
    no check on the number of head words.  On a buffer without any word, each
    of the five selectors stops at [w[0]] with Python's [IndexError], which
    is not a [ClickException]; and when the fifth chunk of a token variant is
    the single byte [07], decoding succeeds and reads it as [deadline = 7]. *)
Theorem decode_v2_no_head_check :
  Forall (λ sel, decode_v2 [] sel = Raise IndexError)
    (v2_token_selectors ++ v2_eth_selectors) ∧
  (∀ msg, Raise (A := gmap string value * list string) IndexError ≠ Raise (ClickException msg)) ∧
  len (replicate 128 x00 ++ [x07]) = 129 ∧
  decode_v2 (replicate 128 x00 ++ [x07]) SEL_V2_SWAP_EXACT_TOKENS_FOR_TOKENS =
    Ok (<["deadline" := VInt 7]>
          (<["to" := VStr "0x0000000000000000000000000000000000000000"]>
             (<["amount1" := VInt 0]> (<["amount0" := VInt 0]> ∅))), []).
Proof.
  split_and!; [|done|done|vm_compute; reflexivity].
  repeat constructor.
Qed.

(** ** [decode_v3_exact] *)

(** The precondition of [decode_v3_exact] counts the chunks of [words], the
    last of which may be short: it fails exactly on 128 bytes or fewer. *)
Lemma decode_v3_exact_too_short payload sel :
  decode_v3_exact payload sel = Raise V3StructTooShort ↔ len payload ≤ 128.
Proof.
  unfold decode_v3_exact. cbv zeta. rewrite length_words.
  pose proof (len_nonneg payload) as Hn.
  pose proof (Z.div_mod (len payload + 31) 32 ltac:(lia)) as Hdiv.
  pose proof (Z.mod_pos_bound (len payload + 31) 32 ltac:(lia)) as Hmod.
  case_bool_decide as Hw; simpl.
  - split; [lia|done].
  - split; [|lia]. intros Hraise. exfalso.
    assert (∀ k : nat, (k < 5)%nat → ∃ x, index (words payload) k = Ok x) as Hidx.
    { intros k Hk. apply index_lt. apply Nat2Z.inj_lt.
      fold (len (words payload)). rewrite length_words. lia. }
    destruct (Hidx 0%nat ltac:(lia)) as [w0 H0].
    destruct (Hidx 1%nat ltac:(lia)) as [w1 H1].
    destruct (Hidx 2%nat ltac:(lia)) as [w2 H2].
    destruct (Hidx 3%nat ltac:(lia)) as [w3 H3].
    destruct (Hidx 4%nat ltac:(lia)) as [w4 H4].
    rewrite H0 in Hraise. simpl in Hraise.
    destruct (is_offset_like _ _); [|discriminate Hraise].
    rewrite read_dyn_cases in Hraise. cbv zeta in Hraise.
    repeat case_bool_decide; simpl in Hraise; try discriminate Hraise;
      rewrite H1, H2 in Hraise; simpl in Hraise;
      rewrite H3, H4 in Hraise; discriminate Hraise.
Qed.

(** C3, at the input where the source departs from it: a buffer of 129
    bytes has four full head words only (129 < 160), yet the precondition
    check lets it through; decoding succeeds and reads the one-byte fifth
    chunk [07] as [amountOutMin = 7]. *)
Theorem decode_v3_exact_partial_fifth_word :
  let payload := replicate 128 x00 ++ [x07] in
  len payload = 129 ∧
  len payload < 160 ∧
  len (words payload) = 5 ∧
  decode_v3_exact payload SEL_V3_EXACT_INPUT ≠ Raise V3StructTooShort ∧
  decode_v3_exact payload SEL_V3_EXACT_INPUT =
    Ok (<["amountOutMin" := VInt 7]> (<["amountIn" := VInt 0]>
          (<["deadline" := VInt 0]>
             (<["recipient" := VStr "0x0000000000000000000000000000000000000000"]> ∅))),
        []).
Proof.
  assert (decode_v3_exact (replicate 128 x00 ++ [x07]) SEL_V3_EXACT_INPUT =
    Ok (<["amountOutMin" := VInt 7]> (<["amountIn" := VInt 0]>
          (<["deadline" := VInt 0]>
             (<["recipient" := VStr "0x0000000000000000000000000000000000000000"]> ∅))),
        [])) as Hdec by (vm_compute; reflexivity).
  cbv zeta. split_and!; [done|done|vm_compute; reflexivity| |done].
  rewrite Hdec. discriminate.
Qed.

(** C9: no lower bound ties a dynamic offset to the head size.  There is a
    buffer, made of five head words only, whose path-offset word is 32 and on
    which [decode_v3_exact] succeeds: the recipient word serves as the length
    word (20), and the path bytes are the first 20 bytes of the deadline
    word, inside the head. *)
Theorem decode_v3_exact_path_inside_head :
  ∃ payload w0 fields path_bytes,
    len payload = 5 * 32 ∧
    words payload !! 0%nat = Some w0 ∧ u256 w0 = 32 ∧
    is_offset_like 32 (len payload) = true ∧
    read_dyn payload 32 = Ok (20, path_bytes) ∧
    path_bytes = slice payload 64 84 ∧
    path_bytes = take 20 (default [] (words payload !! 2%nat)) ∧
    decode_v3_exact payload SEL_V3_EXACT_INPUT = Ok (fields, ["0x" +:+ hex path_bytes]) ∧
    fields !! "recipient" = Some (VStr "0x0000000000000000000000000000000000000014") ∧
    fields !! "deadline" =
      Some (VInt 0x0102030405060708090a0b0c0d0e0f101112131415161718191a1b1c1d1e1f20).
Proof.
  exists calldata_v3_path_in_head, (abi_uint256 32),
    (<["amountOutMin" := VInt 9]> (<["amountIn" := VInt 7]>
       (<["deadline" :=
            VInt 0x0102030405060708090a0b0c0d0e0f101112131415161718191a1b1c1d1e1f20]>
          (<["recipient" := VStr "0x0000000000000000000000000000000000000014"]> ∅)))),
    [x01; x02; x03; x04; x05; x06; x07; x08; x09; x0a;
     x0b; x0c; x0d; x0e; x0f; x10; x11; x12; x13; x14].
  split_and!; vm_compute; reflexivity.
Qed.

(** * Further properties of the decoding engine *)

(** ** [u256] *)

Lemma u256_zeros k : u256 (replicate k x00) = 0.
Proof.
  induction k as [|k IH]; [done|].
  change (replicate (S k) x00) with ([x00] ++ replicate k x00).
  rewrite u256_app_shift, IH. done.
Qed.

(** X1: big-endian reading composes: the value of [a ++ b] is the value
    of [a] shifted by the bytes of [b], plus the value of [b]; so zero bytes
    in front of [b] do not change its value. *)
Theorem u256_app (a b : bytes) :
  u256 (a ++ b) = u256 a * 256 ^ len b + u256 b ∧
  ∀ k, u256 (replicate k x00 ++ b) = u256 b.
Proof.
  split; [apply u256_app_shift|].
  intros k. rewrite u256_app_shift, u256_zeros. lia.
Qed.

Lemma u256_lt_pow (b : bytes) : u256 b < 256 ^ len b.
Proof.
  induction b as [|x b IH] using rev_ind; [done|].
  rewrite u256_app_shift, len_app. change (len [x]) with 1.
  pose proof (len_nonneg b). rewrite Z.pow_add_r by lia.
  assert (u256 [x] < 256) as Hx.
  { rewrite u256_fold. simpl. pose proof (Byte.to_N_bounded x). lia. }
  pose proof (u256_nonneg b). pose proof (u256_nonneg [x]). nia.
Qed.

(** X2: a chunk of at most 32 bytes reads as a value between [0] and
    [UINT256_MAX]. *)
Theorem u256_range (b : bytes) :
  len b ≤ 32 → 0 ≤ u256 b ≤ UINT256_MAX.
Proof.
  intros Hb. split; [apply u256_nonneg|].
  pose proof (u256_lt_pow b) as Hlt. pose proof (len_nonneg b).
  assert (256 ^ len b ≤ 256 ^ 32) by (apply Z.pow_le_mono_r; lia).
  change UINT256_MAX with (256 ^ 32 - 1). lia.
Qed.

(** X2 on the largest word, 32 bytes [ff]. *)
Lemma u256_range_witness : 0 ≤ u256 (replicate 32 xff) ≤ UINT256_MAX.
Proof. apply u256_range. vm_compute. discriminate. Defined.

(** ** [words] *)

Lemma words_nil : words [] = [].
Proof. reflexivity. Qed.

(** After a first chunk of 32 bytes, [words] goes on with the rest. *)
Lemma words_take_drop (payload : bytes) :
  (32 < length payload)%nat →
  words payload = take 32 payload :: words (drop 32 payload).
Proof.
  intros Hlen. rewrite <- (take_drop 32 payload) at 1.
  apply words_app_word. rewrite length_take. lia.
Qed.

Lemma words_short (payload : bytes) :
  (0 < length payload ≤ 32)%nat → words payload = [payload].
Proof.
  intros Hlen. apply list_eq. intros [|k].
  - rewrite lookup_words, bool_decide_eq_true_2 by (unfold len; lia).
    simpl. f_equal. unfold slice, clamp_bound.
    replace (32 * Z.of_nat 0 + 32) with 32 by lia.
    replace (32 * Z.of_nat 0) with 0 by lia.
    change (0 <? 0) with false. change (32 <? 0) with false. cbv iota.
    rewrite (Z.min_l 0), (Z.min_r 32) by (unfold len; lia).
    rewrite Z.sub_0_r. unfold len. rewrite Nat2Z.id. apply firstn_all.
  - rewrite lookup_words, bool_decide_eq_false_2 by (unfold len; lia). done.
Qed.

(** X3: [words] is a partition of the buffer: the chunks put end to end are
    the buffer, no chunk is empty or longer than 32 bytes, and every chunk
    but the last has exactly 32 bytes. *)
Theorem words_partition (payload : bytes) :
  concat (words payload) = payload ∧
  Forall (λ w, 1 ≤ len w ≤ 32) (words payload) ∧
  (∀ (k : nat) w, words payload !! k = Some w →
     (S k < length (words payload))%nat → len w = 32).
Proof.
  assert (∀ n (payload : bytes), (length payload ≤ n)%nat →
    concat (words payload) = payload ∧
    Forall (λ w, 1 ≤ len w ≤ 32) (words payload) ∧
    (∀ (k : nat) w, words payload !! k = Some w →
       (S k < length (words payload))%nat → len w = 32)) as Hn.
  { clear payload. induction n as [|n IH]; intros payload Hlen.
    - destruct payload; [|simpl in Hlen; lia]. rewrite words_nil.
      split_and!; [done|constructor|]. intros k w Hk. by rewrite lookup_nil in Hk.
    - destruct (decide (length payload = 0)%nat) as [Hz|Hnz].
      { destruct payload; [|done]. rewrite words_nil.
        split_and!; [done|constructor|]. intros k w Hk. by rewrite lookup_nil in Hk. }
      destruct (decide (length payload ≤ 32)%nat) as [Hshort|Hlong].
      { rewrite words_short by lia. simpl. rewrite app_nil_r.
        split_and!; [done|repeat constructor; unfold len; lia|].
        intros k w _ Hk. simpl in Hk. lia. }
      rewrite words_take_drop by lia.
      destruct (IH (drop 32 payload)) as (Hcat & Hall & Hfull).
      { rewrite length_drop. lia. }
      split_and!.
      + simpl. rewrite Hcat. apply take_drop.
      + constructor; [|done]. unfold len. rewrite length_take. lia.
      + intros [|k] w Hk Hlast; simpl in Hk, Hlast.
        * simplify_eq. unfold len. rewrite length_take. lia.
        * apply (Hfull k w Hk). lia. }
  by apply (Hn (length payload)).
Qed.

(** ** [hex] and [to_hex_addr] *)

Lemma hex_app (a b : bytes) : hex (a ++ b) = hex a +:+ hex b.
Proof. induction a as [|x a IH]; simpl; [done|]. by rewrite IH. Qed.

(** What printing a nibble and reading it back gives. *)
Lemma digit_value_hex_digit n :
  (n < 16)%N →
  digit_value (hex_digit n) = Some n ∧ is_space (hex_digit n) = false ∧
  lower_char (hex_digit n) = hex_digit n.
Proof.
  intros Hn.
  assert (n ∈ [0; 1; 2; 3; 4; 5; 6; 7; 8; 9; 10; 11; 12; 13; 14; 15]%N) as Hin.
  { assert (n = N.of_nat (N.to_nat n)) as -> by lia.
    assert (N.to_nat n < 16)%nat as Hlt by lia. revert Hlt.
    generalize (N.to_nat n). intros m Hm.
    do 16 (destruct m as [|m]; [set_solver|]). lia. }
  set_unfold in Hin. destruct_or!; subst; by vm_compute.
Qed.

Lemma byte_nibbles (x : byte) :
  (Byte.to_N x / 16 < 16)%N ∧ (Byte.to_N x mod 16 < 16)%N ∧
  byte_of_digits (Byte.to_N x / 16) (Byte.to_N x mod 16) = x.
Proof.
  pose proof (Byte.to_N_bounded x) as Hx. split_and!.
  - apply N.Div0.div_lt_upper_bound. lia.
  - apply N.mod_lt. lia.
  - unfold byte_of_digits. rewrite <- N.div_mod by lia. by rewrite Byte.of_to_N.
Qed.

Lemma fromhex_at_hex pos (b : bytes) : fromhex_at pos (hex b) = inr b.
Proof.
  revert pos. induction b as [|x b IH]; intros pos; [done|].
  destruct (byte_nibbles x) as (Hhi & Hlo & Hx).
  destruct (digit_value_hex_digit _ Hhi) as (Hdhi & Hshi & _).
  destruct (digit_value_hex_digit _ Hlo) as (Hdlo & _ & _).
  simpl. rewrite Hshi, Hdhi, Hdlo, IH. by rewrite Hx.
Qed.

Lemma lower_hex (b : bytes) : lower (hex b) = hex b.
Proof.
  induction b as [|x b IH]; [done|].
  destruct (byte_nibbles x) as (Hhi & Hlo & _).
  destruct (digit_value_hex_digit _ Hhi) as (_ & _ & Hlhi).
  destruct (digit_value_hex_digit _ Hlo) as (_ & _ & Hllo).
  simpl. by rewrite Hlhi, Hllo, IH.
Qed.

Lemma strip0x_hex (b : bytes) : strip0x (hex b) = hex b.
Proof.
  destruct b as [|x b]; [done|].
  destruct (byte_nibbles x) as (_ & Hlo & _).
  destruct (digit_value_hex_digit _ Hlo) as (Hdlo & _ & _).
  unfold strip0x, startswith.
  destruct (String.prefix "0x" (hex (x :: b))) eqn:Hp; [|done].
  exfalso. apply String.prefix_correct in Hp. cbn in Hp.
  injection Hp as _ Hx _. rewrite Hx in Hdlo. by vm_compute in Hdlo.
Qed.

Lemma length_hex_even (b : bytes) : Z.of_nat (String.length (hex b)) `mod` 2 = 0.
Proof.
  rewrite length_hex. replace (Z.of_nat (2 * length b)) with (Z.of_nat (length b) * 2) by lia.
  apply Z.mod_mul. lia.
Qed.

(** X4: [as_bytes] reads back what [hex] prints, with or without the [0x]
    prefix; so two byte strings with the same hexadecimal text are equal. *)
Theorem as_bytes_hex (b : bytes) :
  as_bytes (hex b) = Ok b ∧ as_bytes ("0x" +:+ hex b) = Ok b ∧
  (∀ b', hex b' = hex b → b' = b).
Proof.
  assert (∀ c, as_bytes (hex c) = Ok c) as Hplain.
  { intros c. unfold as_bytes. rewrite strip0x_hex, lower_hex.
    rewrite bool_decide_eq_true_2 by apply length_hex_even.
    by rewrite (fromhex_of_scan _ _ (fromhex_at_hex 0 _)). }
  split_and!; [done| |].
  - unfold as_bytes. rewrite strip0x_0x, lower_hex.
    rewrite bool_decide_eq_true_2 by apply length_hex_even.
    by rewrite (fromhex_of_scan _ _ (fromhex_at_hex 0 _)).
  - intros b' Heq. pose proof (Hplain b') as Hb'. rewrite Heq, Hplain in Hb'.
    by simplify_eq.
Qed.

Lemma digit_value_lower c :
  match digit_value c with
  | Some v => (v < 16)%N ∧ hex_digit v = lower_char c ∧ is_space c = false
  | None => True
  end.
Proof. destruct c as [[] [] [] [] [] [] [] []]; by vm_compute. Qed.

Lemma lower_char_idemp c : lower_char (lower_char c) = lower_char c.
Proof. destruct c as [[] [] [] [] [] [] [] []]; by vm_compute. Qed.

Lemma lower_remove_spaces_lower s :
  lower (remove_spaces (lower s)) = remove_spaces (lower s).
Proof.
  induction s as [|c s IH]; [done|]. simpl.
  destruct (is_space (lower_char c)); [done|].
  simpl. by rewrite lower_char_idemp, IH.
Qed.

(** Whatever [bytes.fromhex] accepts, it returns the bytes whose
    hexadecimal text is the input without its white space, lower-cased. *)
Lemma fromhex_at_sound s : ∀ pos b,
  fromhex_at pos s = inr b → hex b = lower (remove_spaces s).
Proof.
  assert (∀ n s, (String.length s ≤ n)%nat → ∀ pos b,
            fromhex_at pos s = inr b → hex b = lower (remove_spaces s)) as Hn.
  { clear s. induction n as [|n IH]; intros s Hlen pos b Hb.
    - destruct s; [|simpl in Hlen; lia]. simpl in Hb. by simplify_eq.
    - destruct s as [|c s]; [simpl in Hb; by simplify_eq|].
      simpl in Hlen. simpl in Hb. simpl remove_spaces.
      destruct (is_space c) eqn:Hsp; [apply (IH s ltac:(lia) _ _ Hb)|].
      pose proof (digit_value_lower c) as Hc.
      destruct (digit_value c) as [hi|]; [|done].
      destruct s as [|d s]; [done|].
      pose proof (digit_value_lower d) as Hd.
      destruct (digit_value d) as [lo|]; [|done].
      destruct (fromhex_at (S (S pos)) s) as [e|b'] eqn:Hrest; [done|].
      simplify_eq. destruct Hc as (Hhi & Hhic & _), Hd as (Hlo & Hloc & Hspd).
      rewrite hex_byte_of_digits by done.
      simpl in Hlen. specialize (IH s ltac:(lia) _ _ Hrest).
      simpl. rewrite Hspd. simpl. by rewrite Hhic, Hloc, IH. }
  intros pos b. by apply (Hn (String.length s)).
Qed.

(** X5: when [as_bytes] succeeds, the hexadecimal text of the bytes it
    returns is the input without its [0x] prefix, lower-cased and without
    white space: no digit is dropped, added or changed. *)
Theorem as_bytes_sound h b :
  as_bytes h = Ok b → hex b = remove_spaces (lower (strip0x h)).
Proof.
  unfold as_bytes. case_bool_decide; [|done].
  destruct (fromhex _) as [e|b'] eqn:Hb; [done|].
  intros ?; simplify_eq. rewrite (fromhex_at_sound _ _ _ (fromhex_inr_scan _ _ Hb)).
  apply lower_remove_spaces_lower.
Qed.

(** X5 on a text with an upper-case digit and white space between the
    bytes. *)
Lemma as_bytes_sound_witness : hex [xab; x01] = remove_spaces (lower (strip0x "0xAb 01 ")).
Proof. apply as_bytes_sound. reflexivity. Defined.

Lemma slice_from_app_exact {A : Type} (pad l : list A) :
  length l = 20%nat → slice_from (pad ++ l) (-20) = l.
Proof.
  intros Hl. unfold slice_from, clamp_bound. rewrite len_app.
  change (-20 <? 0) with true. cbv iota.
  replace (Z.to_nat (Z.max (-20 + (len pad + len l)) 0)) with (length pad)
    by (unfold len; lia).
  by rewrite drop_app_length.
Qed.

Lemma to_hex_addr_app (pad addr : bytes) :
  length addr = 20%nat → to_hex_addr (pad ++ addr) = "0x" +:+ hex addr.
Proof. intros Haddr. unfold to_hex_addr. by rewrite slice_from_app_exact. Qed.

Lemma length_to_hex_addr (w : bytes) :
  20 ≤ len w → String.length (to_hex_addr w) = 42%nat.
Proof.
  intros Hw. rewrite <- (take_drop (length w - 20) w).
  rewrite to_hex_addr_app by (rewrite length_drop; unfold len in Hw; lia).
  change (String.length ("0x" +:+ ?s)) with (S (S (String.length s))).
  rewrite length_hex, length_drop. unfold len in Hw. lia.
Qed.

(** X6: [to_hex_addr] looks at the last 20 bytes of a word only: whatever
    the padding before a 20-byte address, the result is [0x] followed by the
    40 hexadecimal digits of the address. *)
Theorem to_hex_addr_padding (pad addr : bytes) :
  length addr = 20%nat →
  to_hex_addr (pad ++ addr) = "0x" +:+ hex addr ∧
  String.length (to_hex_addr (pad ++ addr)) = 42%nat.
Proof.
  intros Haddr. split; [by apply to_hex_addr_app|].
  apply length_to_hex_addr. rewrite len_app. unfold len. lia.
Qed.

(** X6 on an address behind twelve bytes [ff] of padding. *)
Lemma to_hex_addr_padding_witness :
  to_hex_addr (replicate 12 xff ++ replicate 20 x01) = "0x" +:+ hex (replicate 20 x01) ∧
  String.length (to_hex_addr (replicate 12 xff ++ replicate 20 x01)) = 42%nat.
Proof. apply to_hex_addr_padding. reflexivity. Defined.

Lemma hex_inj (a b : bytes) : hex a = hex b → a = b.
Proof.
  intros Heq. pose proof (fromhex_at_hex 0 a) as Ha.
  rewrite Heq, fromhex_at_hex in Ha. by simplify_eq.
Qed.

(** X7: two words give the same address text exactly when their last 20
    bytes are the same, so equal tokens of a path are equal addresses. *)
Theorem to_hex_addr_eq_iff (w1 w2 : bytes) :
  to_hex_addr w1 = to_hex_addr w2 ↔ slice_from w1 (-20) = slice_from w2 (-20).
Proof.
  unfold to_hex_addr. split.
  - intros Heq. apply hex_inj. by simplify_eq/=.
  - by intros ->.
Qed.

(** *** Address texts *)

Lemma is_lower_hex_digit_hex_digit n :
  (n < 16)%N → is_lower_hex_digit (hex_digit n) = true.
Proof.
  intros Hn.
  assert (n ∈ [0; 1; 2; 3; 4; 5; 6; 7; 8; 9; 10; 11; 12; 13; 14; 15]%N) as Hin.
  { assert (n = N.of_nat (N.to_nat n)) as -> by lia.
    assert (N.to_nat n < 16)%nat as Hlt by lia. revert Hlt.
    generalize (N.to_nat n). intros m Hm.
    do 16 (destruct m as [|m]; [set_solver|]). lia. }
  set_unfold in Hin. destruct_or!; subst; by vm_compute.
Qed.

Lemma all_lower_hex_hex (b : bytes) : all_lower_hex (hex b) = true.
Proof.
  induction b as [|x b IH]; [done|].
  destruct (byte_nibbles x) as (Hhi & Hlo & _). simpl.
  by rewrite !is_lower_hex_digit_hex_digit, IH.
Qed.

(** Twenty bytes print as an address text. *)
Lemma is_address_text_hex (b : bytes) :
  length b = 20%nat → is_address_text ("0x" +:+ hex b) = true.
Proof.
  intros Hb. change (is_address_text ("0x" +:+ hex b))
    with ((String.length (hex b) =? 40)%nat && all_lower_hex (hex b)).
  rewrite length_hex, Hb, all_lower_hex_hex. done.
Qed.

Lemma to_hex_addr_address_text (w : bytes) :
  20 ≤ len w → is_address_text (to_hex_addr w) = true.
Proof.
  intros Hw. rewrite <- (take_drop (length w - 20) w).
  rewrite to_hex_addr_app by (rewrite length_drop; unfold len in Hw; lia).
  apply is_address_text_hex. rewrite length_drop. unfold len in Hw. lia.
Qed.

(** ** [is_offset_like] and [read_dyn] together *)

(** X8: an offset that passed [is_offset_like] against the buffer length
    leaves room for the length word, except on a buffer shorter than one
    word, where the accepted offset 0 makes [read_dyn] raise "Dynamic head
    points out of bounds". *)
Theorem read_dyn_after_offset_check (payload : bytes) off :
  is_offset_like off (len payload) = true →
  (read_dyn payload off = Raise DynamicHeadOutOfBounds ↔ len payload < 32).
Proof.
  intros Hoff%is_offset_like_true. rewrite read_dyn_cases. cbv zeta.
  repeat case_bool_decide; split; (done || lia).
Qed.

(** X8 on a buffer of 31 bytes, where offset 0 passes the check. *)
Lemma read_dyn_after_offset_check_witness :
  read_dyn (replicate 31 x00) 0 = Raise DynamicHeadOutOfBounds ↔ len (replicate 31 x00) < 32.
Proof. apply read_dyn_after_offset_check. reflexivity. Defined.

Lemma slice_split {A : Type} (l : list A) i j :
  0 ≤ i → i ≤ j → j ≤ len l →
  l = take (Z.to_nat i) l ++ slice l i j ++ drop (Z.to_nat j) l.
Proof.
  intros Hi Hij Hj. rewrite slice_in_range by done.
  rewrite <- (take_drop (Z.to_nat i) l) at 1. f_equal.
  rewrite <- (take_drop (Z.to_nat (j - i)) (drop (Z.to_nat i) l)) at 1. f_equal.
  rewrite drop_drop. f_equal. lia.
Qed.

(** X9: what [read_dyn] returns at a non-negative offset is laid out in
    the buffer as it says: [off] bytes, then a 32-byte word whose value is
    the returned length, then the returned content, of that length. *)
Theorem read_dyn_layout (payload : bytes) off ln body :
  0 ≤ off → read_dyn payload off = Ok (ln, body) →
  ∃ pre lw post,
    payload = pre ++ lw ++ body ++ post ∧
    len pre = off ∧ len lw = 32 ∧ u256 lw = ln ∧ len body = ln.
Proof.
  intros Hoff. rewrite read_dyn_cases. cbv zeta.
  repeat case_bool_decide; try done. intros ?; simplify_eq.
  pose proof (u256_nonneg (slice payload off (off + 32))) as Hln.
  set (ln := u256 (slice payload off (off + 32))) in *.
  exists (take (Z.to_nat off) payload), (slice payload off (off + 32)),
    (drop (Z.to_nat (off + 32 + ln)) payload).
  split_and!.
  - rewrite (slice_split payload off (off + 32)) at 1 by lia. do 2 f_equal.
    rewrite (slice_in_range payload (off + 32)) by lia.
    rewrite <- (take_drop (Z.to_nat (off + 32 + ln - (off + 32)))
                  (drop (Z.to_nat (off + 32)) payload)) at 1.
    f_equal. rewrite drop_drop. f_equal. lia.
  - unfold len in *. rewrite length_take. lia.
  - rewrite length_slice_in_range; lia.
  - done.
  - rewrite length_slice_in_range; lia.
Qed.

(** X9 on a length word of 3 followed by four bytes. *)
Lemma read_dyn_layout_witness :
  ∃ pre lw post,
    abi_uint256 3 ++ [x0a; x0b; x0c; x0d] = pre ++ lw ++ [x0a; x0b; x0c] ++ post ∧
    len pre = 0 ∧ len lw = 32 ∧ u256 lw = 3 ∧ len [x0a; x0b; x0c] = 3.
Proof.
  apply (read_dyn_layout (abi_uint256 3 ++ [x0a; x0b; x0c; x0d]) 0 3 [x0a; x0b; x0c]);
    [lia|reflexivity].
Defined.

(** ** [decode_path_at_arg] and [decode_v2] *)

Lemma index_Ok {A : Type} (w : list A) k x : index w k = Ok x ↔ w !! k = Some x.
Proof. unfold index. destruct (w !! k); split; intros ?; by simplify_eq. Qed.

Lemma index_Raise {A : Type} (w : list A) k e : index w k = Raise e → e = IndexError.
Proof. unfold index. destruct (w !! k); intros ?; by simplify_eq. Qed.

Lemma slice_app_l {A : Type} (l1 l2 : list A) i j :
  0 ≤ i → i ≤ j → j ≤ len l1 → slice (l1 ++ l2) i j = slice l1 i j.
Proof.
  intros Hi Hij Hj. pose proof (len_nonneg l2).
  rewrite !slice_in_range by (rewrite ?len_app; lia).
  rewrite drop_app_le by (unfold len in *; lia).
  rewrite take_app_le; [done|]. rewrite length_drop. unfold len in *. lia.
Qed.

Lemma len_range n : 0 ≤ n → len (range n) = n.
Proof. intros Hn. unfold len. rewrite length_range. lia. Qed.

Lemma elem_of_range i n : i ∈ range n → 0 ≤ i < n.
Proof.
  unfold range. intros (k & -> & Hk)%list_elem_of_fmap.
  apply elem_of_seq in Hk. lia.
Qed.

(** The outcomes of [decode_path_at_arg], whatever the word list. *)
Lemma decode_path_at_arg_inv H w total k r :
  decode_path_at_arg H w total k = r →
  match w !! k with
  | None => r = Raise IndexError
  | Some wd =>
      if is_offset_like (u256 wd) total then
        let off := u256 wd in
        let ln := u256 (slice H off (off + 32)) in
        r = if bool_decide (off + 32 > len H) then Raise DynamicHeadOutOfBounds
            else if bool_decide (off + 32 + ln > len H) then Raise DynamicBodyTruncated
            else if bool_decide (ln = 0) then Ok []
            else if bool_decide (off + 32 + ln * 32 > len H) then Raise PathTruncated
            else Ok ((λ i, to_hex_addr (slice H (off + 32 + i * 32) (off + 32 + (i + 1) * 32)))
                       <$> range ln)
      else r = Raise BadPathOffsetV2
  end.
Proof.
  intros <-. destruct (w !! k) as [wd|] eqn:Hwd.
  - destruct (is_offset_like (u256 wd) total) eqn:Hoff.
    + by rewrite (decode_path_at_arg_checked _ _ _ _ _ Hwd Hoff).
    + unfold decode_path_at_arg. rewrite (index_lookup _ _ _ Hwd). simpl. by rewrite Hoff.
  - unfold decode_path_at_arg, index. by rewrite Hwd.
Qed.

(** A successful [decode_v2] went through one of the two layouts, found
    every head word it indexes and decoded the path. *)
Lemma decode_v2_Ok_inv payload sel fields toks :
  decode_v2 payload sel = Ok (fields, toks) →
  ∃ k nhead, v2_layout sel = Some (k, nhead) ∧
    (nhead ≤ length (words payload))%nat ∧
    decode_path_at_arg payload (words payload) (len payload) k = Ok toks ∧
    ∃ w0 wto wdl, words payload !! 0%nat = Some w0 ∧
      fields !! "amount0" = Some (VInt (u256 w0)) ∧
      fields !! "to" = Some (VStr (to_hex_addr wto)) ∧
      fields !! "deadline" = Some (VInt (u256 wdl)) ∧
      words payload !! (nhead - 2)%nat = Some wto ∧
      words payload !! (nhead - 1)%nat = Some wdl ∧
      dom fields = if bool_decide (k = 2%nat)
                   then {[ "amount0"; "amount1"; "to"; "deadline" ]}
                   else ({[ "amount0"; "to"; "deadline" ]} : gset string).
Proof.
  unfold decode_v2, v2_layout. fold v2_token_selectors v2_eth_selectors. cbv zeta.
  repeat case_bool_decide; [| |done].
  - destruct (index (words payload) 0) as [w0|] eqn:Hi0; [|done].
    destruct (index (words payload) 1) as [w1|] eqn:Hi1; [|done].
    simpl. destruct (decode_path_at_arg _ _ _ _) as [toks'|] eqn:Hpath; [|done].
    simpl. destruct (index (words payload) 3) as [w3|] eqn:Hi3; [|done].
    destruct (index (words payload) 4) as [w4|] eqn:Hi4; [|done].
    simpl. intros ?; simplify_eq.
    apply index_Ok in Hi0, Hi3, Hi4.
    exists 2%nat, 5%nat. split_and!; [done| |done|].
    { apply lookup_lt_Some in Hi4. lia. }
    exists w0, w3, w4. split_and!; try done; try by simplify_map_eq.
  - destruct (index (words payload) 0) as [w0|] eqn:Hi0; [|done].
    simpl. destruct (decode_path_at_arg _ _ _ _) as [toks'|] eqn:Hpath; [|done].
    simpl. destruct (index (words payload) 2) as [w2|] eqn:Hi2; [|done].
    destruct (index (words payload) 3) as [w3|] eqn:Hi3; [|done].
    simpl. intros ?; simplify_eq.
    apply index_Ok in Hi0, Hi2, Hi3.
    exists 1%nat, 4%nat. split_and!; [done| |done|].
    { apply lookup_lt_Some in Hi3. lia. }
    exists w0, w2, w3. split_and!; try done; try by simplify_map_eq.
Qed.

(** A failed [decode_v2] either had no layout for the selector, or ran out
    of head words, or failed in the path. *)
Lemma decode_v2_Raise_inv payload sel e :
  decode_v2 payload sel = Raise e →
  (v2_layout sel = None ∧ e = UnknownV2Layout) ∨
  ∃ k nhead, v2_layout sel = Some (k, nhead) ∧
    ((e = IndexError ∧ (length (words payload) < nhead)%nat) ∨
     (∃ wd, words payload !! k = Some wd ∧
        decode_path_at_arg payload (words payload) (len payload) k = Raise e)).
Proof.
  unfold decode_v2, v2_layout. fold v2_token_selectors v2_eth_selectors. cbv zeta.
  assert (∀ k e', index (words payload) k = Raise e' →
            e' = IndexError ∧ (length (words payload) ≤ k)%nat) as Hidx.
  { intros k e' Hk. split; [by eapply index_Raise|].
    unfold index in Hk. destruct (words payload !! k) eqn:Hl; [done|].
    by apply lookup_ge_None. }
  assert (∀ k e', decode_path_at_arg payload (words payload) (len payload) k = Raise e' →
            (e' = IndexError ∧ (length (words payload) ≤ k)%nat) ∨
            (∃ wd, words payload !! k = Some wd)) as Hpath.
  { intros k e' Hk. apply decode_path_at_arg_inv in Hk.
    destruct (words payload !! k) eqn:Hl; [by eauto|].
    left. split; [by simplify_eq|by apply lookup_ge_None]. }
  repeat case_bool_decide; [| |intros ?; simplify_eq; by left].
  - intros Hdec. right. exists 2%nat, 5%nat. split; [done|]. revert Hdec.
    destruct (index (words payload) 0) as [w0|e0] eqn:Hi0;
      [|intros ?; simplify_eq/=; left; destruct (Hidx _ _ Hi0) as [-> ?]; split; [done|lia]].
    destruct (index (words payload) 1) as [w1|e1] eqn:Hi1;
      [|intros ?; simplify_eq/=; left; destruct (Hidx _ _ Hi1) as [-> ?]; split; [done|lia]].
    simpl. destruct (decode_path_at_arg _ _ _ _) as [toks'|ep] eqn:Hp.
    + simpl.
      destruct (index (words payload) 3) as [w3|e3] eqn:Hi3;
        [|intros ?; simplify_eq/=; left; destruct (Hidx _ _ Hi3) as [-> ?]; split; [done|lia]].
      destruct (index (words payload) 4) as [w4|e4] eqn:Hi4;
        [|intros ?; simplify_eq/=; left; destruct (Hidx _ _ Hi4) as [-> ?]; split; [done|lia]].
      done.
    + simpl. intros ?; simplify_eq.
      destruct (Hpath _ _ Hp) as [[-> ?]|[wd Hwd]]; [left; split; [done|lia]|].
      right. by exists wd.
  - intros Hdec. right. exists 1%nat, 4%nat. split; [done|]. revert Hdec.
    destruct (index (words payload) 0) as [w0|e0] eqn:Hi0;
      [|intros ?; simplify_eq/=; left; destruct (Hidx _ _ Hi0) as [-> ?]; split; [done|lia]].
    simpl. destruct (decode_path_at_arg _ _ _ _) as [toks'|ep] eqn:Hp.
    + simpl.
      destruct (index (words payload) 2) as [w2|e2] eqn:Hi2;
        [|intros ?; simplify_eq/=; left; destruct (Hidx _ _ Hi2) as [-> ?]; split; [done|lia]].
      destruct (index (words payload) 3) as [w3|e3] eqn:Hi3;
        [|intros ?; simplify_eq/=; left; destruct (Hidx _ _ Hi3) as [-> ?]; split; [done|lia]].
      done.
    + simpl. intros ?; simplify_eq.
      destruct (Hpath _ _ Hp) as [[-> ?]|[wd Hwd]]; [left; split; [done|lia]|].
      right. by exists wd.
Qed.

Lemma v2_layout_cases sel k nhead :
  v2_layout sel = Some (k, nhead) →
  (k = 2%nat ∧ nhead = 5%nat ∧ sel ∈ v2_token_selectors) ∨
  (k = 1%nat ∧ nhead = 4%nat ∧ sel ∈ v2_eth_selectors ∧ sel ∉ v2_token_selectors).
Proof. unfold v2_layout. repeat case_bool_decide; intros ?; simplify_eq; eauto. Qed.

Lemma v2_layout_None sel :
  v2_layout sel = None ↔ sel ∉ v2_token_selectors ++ v2_eth_selectors.
Proof.
  unfold v2_layout. rewrite elem_of_app.
  repeat case_bool_decide; split; (done || tauto).
Qed.

(** The error of a path that was reached through a head word of
    [words payload]. *)
Lemma decode_path_at_arg_error payload (k : nat) wd e :
  (0 < k)%nat → words payload !! k = Some wd →
  decode_path_at_arg payload (words payload) (len payload) k = Raise e →
  let off := u256 wd in
  let ln := u256 (slice payload off (off + 32)) in
  (is_offset_like off (len payload) = false ∧ e = BadPathOffsetV2) ∨
  (is_offset_like off (len payload) = true ∧ off + 32 + ln > len payload ∧
     e = DynamicBodyTruncated) ∨
  (is_offset_like off (len payload) = true ∧ off + 32 + ln ≤ len payload ∧
     off + 32 + ln * 32 > len payload ∧ e = PathTruncated).
Proof.
  intros Hk Hwd Hp. apply decode_path_at_arg_inv in Hp. rewrite Hwd in Hp.
  destruct (is_offset_like (u256 wd) (len payload)) eqn:Hoff; [|left; by simplify_eq].
  destruct (offset_like_head_in_bounds payload k wd Hk Hwd Hoff) as [Hoff0 Hhead].
  cbv zeta in Hp |- *. right.
  repeat case_bool_decide; simplify_eq; (lia || (left; split_and!; (done || lia))
                                         || (right; split_and!; (done || lia))).
Qed.

(** X10: [decode_v2] raises "Unknown V2 swap layout" exactly for the
    selectors outside the five it knows, whatever the payload. *)
Theorem decode_v2_unknown_layout payload sel :
  decode_v2 payload sel = Raise UnknownV2Layout ↔
  sel ∉ v2_token_selectors ++ v2_eth_selectors.
Proof.
  rewrite <- v2_layout_None. split.
  - intros [[? _]|(k & nhead & Hl & Hcase)]%decode_v2_Raise_inv; [done|].
    exfalso. destruct Hcase as [[? _]|(wd & Hwd & Hp)]; [done|].
    assert (0 < k)%nat as Hk by (destruct (v2_layout_cases _ _ _ Hl); lia).
    destruct (decode_path_at_arg_error _ _ _ _ Hk Hwd Hp) as [[_ ?]|[(_ & _ & ?)|(_ & _ & _ & ?)]];
      done.
  - intros Hnone. unfold decode_v2, v2_layout in *.
    fold v2_token_selectors v2_eth_selectors in *.
    by repeat case_bool_decide.
Qed.

(** X11: every error of [decode_v2] is one of five: the unknown layout,
    Python's [IndexError], the rejected path offset, the truncated body and
    the truncated path; "Dynamic head points out of bounds" is never among
    them, and [IndexError] occurs only when the buffer has fewer chunks than
    the layout has head words. *)
Theorem decode_v2_errors payload sel e :
  decode_v2 payload sel = Raise e →
  e ∈ [UnknownV2Layout; IndexError; BadPathOffsetV2; DynamicBodyTruncated; PathTruncated] ∧
  e ≠ DynamicHeadOutOfBounds ∧
  (e = IndexError →
     ∃ k nhead, v2_layout sel = Some (k, nhead) ∧ len payload ≤ 32 * (Z.of_nat nhead - 1)).
Proof.
  intros [[_ ->]|(k & nhead & Hl & Hcase)]%decode_v2_Raise_inv.
  { split_and!; [set_solver|done|done]. }
  destruct Hcase as [[-> Hlen]|(wd & Hwd & Hp)].
  - split_and!; [set_solver|done|]. intros _. exists k, nhead. split; [done|].
    apply Nat2Z.inj_lt in Hlen. fold (len (words payload)) in Hlen.
    rewrite length_words in Hlen. pose proof (len_nonneg payload).
    pose proof (Z.div_mod (len payload + 31) 32 ltac:(lia)).
    pose proof (Z.mod_pos_bound (len payload + 31) 32 ltac:(lia)). lia.
  - assert (0 < k)%nat as Hk by (destruct (v2_layout_cases _ _ _ Hl); lia).
    destruct (decode_path_at_arg_error _ _ _ _ Hk Hwd Hp)
      as [[_ ->]|[(_ & _ & ->)|(_ & _ & _ & ->)]];
      (split_and!; [set_solver|done|done]).
Qed.

(** X11 on three zero words and an ETH variant, which stops at [w[3]]. *)
Lemma decode_v2_errors_witness :
  IndexError ∈ [UnknownV2Layout; IndexError; BadPathOffsetV2; DynamicBodyTruncated;
                PathTruncated] ∧
  IndexError ≠ DynamicHeadOutOfBounds ∧
  (IndexError = IndexError →
     ∃ k nhead, v2_layout SEL_V2_SWAP_EXACT_ETH_FOR_TOKENS = Some (k, nhead) ∧
       len (replicate 96 x00) ≤ 32 * (Z.of_nat nhead - 1)).
Proof. apply (decode_v2_errors (replicate 96 x00)). reflexivity. Defined.

(** X12: when the path-offset word is there, [decode_v2] raises "Bad offset
    for path[]" exactly when that word fails [is_offset_like]. *)
Theorem decode_v2_bad_offset payload sel k nhead wd :
  v2_layout sel = Some (k, nhead) → words payload !! k = Some wd →
  (decode_v2 payload sel = Raise BadPathOffsetV2 ↔
   is_offset_like (u256 wd) (len payload) = false).
Proof.
  intros Hl Hwd. split.
  - intros [[? _]|(k' & nhead' & Hl' & Hcase)]%decode_v2_Raise_inv; [congruence|].
    simplify_eq. destruct Hcase as [[? _]|(wd' & Hwd' & Hp)]; [done|]. simplify_eq.
    assert (0 < k)%nat as Hk by (destruct (v2_layout_cases _ _ _ Hl); lia).
    destruct (decode_path_at_arg_error _ _ _ _ Hk Hwd Hp)
      as [[? _]|[(_ & _ & ?)|(_ & _ & _ & ?)]]; done.
  - intros Hoff. apply (decode_v2_path_error payload sel k nhead wd); [done..|].
    unfold decode_path_at_arg. rewrite (index_lookup _ _ _ Hwd). simpl. by rewrite Hoff.
Qed.

(** X12 on a path-offset word of 33, which is not a multiple of 32. *)
Lemma decode_v2_bad_offset_witness :
  decode_v2 (abi_uint256 0 ++ abi_uint256 33) SEL_V2_SWAP_EXACT_ETH_FOR_TOKENS =
    Raise BadPathOffsetV2 ↔
  is_offset_like (u256 (abi_uint256 33)) (len (abi_uint256 0 ++ abi_uint256 33)) = false.
Proof.
  apply (decode_v2_bad_offset _ SEL_V2_SWAP_EXACT_ETH_FOR_TOKENS 1 4); reflexivity.
Defined.

(** X13: the path tokens of a successful [decode_v2] are all [0x] plus
    40 lower-case hexadecimal digits, there are as many as the length word
    at the path offset says, and the buffer holds a length word and one
    32-byte word for each of them. *)
Theorem decode_v2_path_tokens payload sel fields toks :
  decode_v2 payload sel = Ok (fields, toks) →
  Forall (λ t, is_address_text t = true) toks ∧
  32 + 32 * len toks ≤ len payload ∧
  ∃ k nhead wd, v2_layout sel = Some (k, nhead) ∧ words payload !! k = Some wd ∧
    len toks = u256 (slice payload (u256 wd) (u256 wd + 32)).
Proof.
  intros (k & nhead & Hl & Hhead & Hp & _)%decode_v2_Ok_inv.
  assert (0 < k)%nat as Hk by (destruct (v2_layout_cases _ _ _ Hl); lia).
  apply decode_path_at_arg_inv in Hp.
  destruct (words payload !! k) as [wd|] eqn:Hwd; [|done].
  destruct (is_offset_like (u256 wd) (len payload)) eqn:Hoff; [|done].
  destruct (offset_like_head_in_bounds payload k wd Hk Hwd Hoff) as [Hoff0 Hin].
  cbv zeta in Hp.
  pose proof (u256_nonneg (slice payload (u256 wd) (u256 wd + 32))) as Hln.
  repeat case_bool_decide; simplify_eq.
  - split_and!; [constructor|change (len (@nil string)) with 0; lia|].
    exists k, nhead, wd. split_and!; [done..|]. change (len (@nil string)) with 0. lia.
  - split_and!.
    + apply Forall_fmap, Forall_forall. intros i Hi%elem_of_range. simpl.
      apply to_hex_addr_address_text. rewrite length_slice_in_range; lia.
    + unfold len at 1. rewrite length_fmap. fold (len (range (u256 (slice payload (u256 wd) (u256 wd + 32))))).
      rewrite len_range; lia.
    + exists k, nhead, wd. split_and!; [done..|].
      unfold len at 1. rewrite length_fmap, length_range. lia.
Qed.

(** X13 on a path of the two elements 7 and 8. *)
Lemma decode_v2_path_tokens_witness :
  let payload := calldata_path_cut_in_elements ++ abi_uint256 8 in
  let toks := ["0x0000000000000000000000000000000000000007";
               "0x0000000000000000000000000000000000000008"] in
  Forall (λ t, is_address_text t = true) toks ∧
  32 + 32 * len toks ≤ len payload ∧
  ∃ k nhead wd, v2_layout SEL_V2_SWAP_EXACT_TOKENS_FOR_TOKENS = Some (k, nhead) ∧
    words payload !! k = Some wd ∧
    len toks = u256 (slice payload (u256 wd) (u256 wd + 32)).
Proof.
  apply (decode_v2_path_tokens _ SEL_V2_SWAP_EXACT_TOKENS_FOR_TOKENS
           (<["deadline" := VInt 0]> (<["to" := VStr (to_hex_addr (abi_uint256 0))]>
              (<["amount1" := VInt 0]> (<["amount0" := VInt 0]> ∅))))).
  vm_compute. reflexivity.
Defined.



Lemma slice_concat_word_app (cs : list bytes) (post : bytes) (k : nat) c :
  Forall (λ c, length c = 32%nat) cs → cs !! k = Some c →
  slice (concat cs ++ post) (32 * Z.of_nat k) (32 * Z.of_nat k + 32) = c.
Proof.
  intros Hcs Hk. rewrite slice_app_l; [by apply slice_concat_word|lia|lia|].
  rewrite len_concat_words by done. apply lookup_lt_Some in Hk. unfold len. lia.
Qed.

(** An address array at a checked offset, element by element. *)
Lemma decode_path_at_arg_concat (H : bytes) w total k wd pre lw addrs post :
  w !! k = Some wd → is_offset_like (u256 wd) total = true →
  H = pre ++ lw ++ concat addrs ++ post →
  len pre = u256 wd → length lw = 32%nat → u256 lw = len addrs →
  Forall (λ a, length a = 32%nat) addrs →
  decode_path_at_arg H w total k = Ok (to_hex_addr <$> addrs).
Proof.
  intros Hwd Hoff -> Hpre Hlw Hn Haddrs.
  rewrite (decode_path_at_arg_checked _ _ _ _ _ Hwd Hoff). cbv zeta.
  rewrite <- Hpre. assert (len lw = 32) as Hlw' by (unfold len; lia).
  pose proof (len_nonneg pre). pose proof (len_nonneg post). pose proof (len_nonneg addrs).
  assert (slice (pre ++ lw ++ concat addrs ++ post) (len pre) (len pre + 32) = lw) as ->.
  { rewrite slice_app_r by lia.
    replace (len pre - len pre) with 0 by lia.
    replace (len pre + 32 - len pre) with (len lw) by lia.
    apply slice_app_l_exact. }
  rewrite Hn, !len_app, Hlw', len_concat_words by done.
  rewrite !bool_decide_eq_false_2 by lia.
  case_bool_decide as Hz.
  { destruct addrs; [done|]. unfold len in Hz. simpl in Hz. lia. }
  rewrite bool_decide_eq_false_2 by lia. f_equal.
  apply list_eq. intros i. rewrite !list_lookup_fmap.
  unfold range. rewrite list_lookup_fmap.
  destruct (addrs !! i) as [a|] eqn:Ha.
  - rewrite lookup_seq_lt by (apply lookup_lt_Some in Ha; unfold len; lia).
    simpl. do 2 f_equal.
    rewrite slice_app_r by lia. rewrite slice_app_r by lia. rewrite Hlw'.
    replace (len pre + 32 + Z.of_nat i * 32 - len pre - 32) with (32 * Z.of_nat i) by lia.
    replace (len pre + 32 + (Z.of_nat i + 1) * 32 - len pre - 32)
      with (32 * Z.of_nat i + 32) by lia.
    by apply slice_concat_word_app.
  - rewrite lookup_seq_ge by (apply lookup_ge_None in Ha; unfold len; lia). done.
Qed.

(** X15: an address array laid out at a checked offset decodes to the
    addresses of its elements: if the buffer has, at the offset that the
    head word gives, a length word with the value [N] followed by [N]
    32-byte words (and anything after them), [decode_path_at_arg] returns the
    [to_hex_addr] of these words, in order. *)
Theorem decode_path_at_arg_array (H : bytes) w total k wd pre lw addrs post :
  w !! k = Some wd → is_offset_like (u256 wd) total = true →
  H = pre ++ lw ++ concat addrs ++ post →
  len pre = u256 wd → length lw = 32%nat → u256 lw = len addrs →
  Forall (λ a, length a = 32%nat) addrs →
  decode_path_at_arg H w total k = Ok (to_hex_addr <$> addrs).
Proof. apply decode_path_at_arg_concat. Qed.

(** X15 on two elements at offset 64, with one byte after them. *)
Lemma decode_path_at_arg_array_witness :
  let A := replicate 12 x00 ++ replicate 20 x01 in
  let B := replicate 12 x00 ++ replicate 20 x02 in
  let head := abi_uint256 0 ++ abi_uint256 64 in
  let H := head ++ abi_uint256 2 ++ concat [A; B] ++ [xff] in
  decode_path_at_arg H (words H) (len H) 1 = Ok (to_hex_addr <$> [A; B]).
Proof.
  intros A B head H.
  apply (decode_path_at_arg_array H (words H) (len H) 1 (abi_uint256 64)
           head (abi_uint256 2) [A; B] [xff]);
    [reflexivity|reflexivity|reflexivity|reflexivity|reflexivity|reflexivity|].
  repeat constructor.
Defined.

(** ** [parse_v3_path_bytes] on encoded paths *)

Lemma v3_path_loop_stop b i toks :
  len b < i + 23 → v3_path_loop b i toks = toks.
Proof.
  intros Hlen. rewrite v3_path_loop_spec, range_nonpos; [by rewrite app_nil_r|].
  assert ((len b - i) `div` 23 < 1); [|lia]. apply Z.div_lt_upper_bound; lia.
Qed.

Lemma v3_path_loop_step b i toks :
  i + 23 ≤ len b →
  v3_path_loop b i toks = v3_path_loop b (i + 23) (toks ++ [v3_token_at b (i + 3)]).
Proof.
  intros Hlen. rewrite !v3_path_loop_spec.
  replace (len b - i) with (1 * 23 + (len b - (i + 23))) by lia.
  rewrite Z.div_add_l by lia.
  rewrite fmap_range_succ by (apply Z.div_pos; lia).
  rewrite <- app_assoc. simpl. f_equal. f_equal.
  - unfold v3_token_at. do 3 f_equal; lia.
  - apply list_fmap_ext. intros _ k _. f_equal. lia.
Qed.

Lemma slice_app_mid {A : Type} (pre l post : list A) i j :
  i = len pre → j = len pre + len l → slice (pre ++ l ++ post) i j = l.
Proof.
  intros -> ->. pose proof (len_nonneg pre). pose proof (len_nonneg l).
  rewrite slice_app_r by lia.
  replace (len pre - len pre) with 0 by lia.
  replace (len pre + len l - len pre) with (len l) by lia.
  apply slice_app_l_exact.
Qed.

(** The loop on the hops that follow a prefix of the path. *)
Lemma v3_path_loop_hops hops : ∀ (pre junk : bytes) toks,
  Forall v3_hop_ok hops → len junk < 23 →
  v3_path_loop (pre ++ concat ((λ hop, hop.1 ++ hop.2) <$> hops) ++ junk) (len pre) toks =
    toks ++ ((λ hop, "0x" +:+ hex hop.2) <$> hops).
Proof.
  induction hops as [|[fee t] hops IH]; intros pre junk toks Hhops Hjunk.
  - simpl. rewrite app_nil_r. apply v3_path_loop_stop. rewrite len_app. lia.
  - apply Forall_cons in Hhops as [[Hfee Ht] Hhops]. simpl in Hfee, Ht.
    assert (len fee = 3 ∧ len t = 20) as [Hfee' Ht'] by (unfold len; lia).
    pose proof (len_nonneg junk).
    pose proof (len_nonneg (concat ((λ hop, hop.1 ++ hop.2) <$> hops))).
    rewrite v3_path_loop_step by (cbn [fmap list_fmap concat fst snd]; rewrite !len_app; lia).
    cbn [fmap list_fmap concat fst snd].
    assert (v3_token_at (pre ++ ((fee ++ t) ++ concat ((λ hop, hop.1 ++ hop.2) <$> hops)) ++ junk)
              (len pre + 3) = "0x" +:+ hex t) as ->.
    { unfold v3_token_at. do 2 f_equal.
      replace (pre ++ ((fee ++ t) ++ concat ((λ hop, hop.1 ++ hop.2) <$> hops)) ++ junk)
        with ((pre ++ fee) ++ t ++ (concat ((λ hop, hop.1 ++ hop.2) <$> hops) ++ junk))
        by (by rewrite <- !app_assoc).
      apply slice_app_mid; rewrite len_app; lia. }
    replace (pre ++ ((fee ++ t) ++ concat ((λ hop, hop.1 ++ hop.2) <$> hops)) ++ junk)
      with ((pre ++ fee ++ t) ++ concat ((λ hop, hop.1 ++ hop.2) <$> hops) ++ junk)
      by (by rewrite <- !app_assoc).
    replace (len pre + 23) with (len (pre ++ fee ++ t)) by (rewrite !len_app; lia).
    rewrite IH by done. by rewrite <- app_assoc.
Qed.

(** X16: parsing an encoded path gives its tokens back: for a first
    20-byte token, any number of hops of a 3-byte fee and a 20-byte token,
    and a tail of fewer than 23 bytes, [parse_v3_path_bytes] returns the
    hexadecimal text of the tokens, in order; the fees and the tail are
    dropped. *)
Theorem parse_v3_path_bytes_encode (t0 : bytes) hops (junk : bytes) :
  length t0 = 20%nat → Forall v3_hop_ok hops → len junk < 23 →
  parse_v3_path_bytes (encode_v3_path t0 hops ++ junk) =
    ("0x" +:+ hex t0) :: ((λ hop, "0x" +:+ hex hop.2) <$> hops).
Proof.
  intros Ht0 Hhops Hjunk. assert (len t0 = 20) as Ht0' by (unfold len; lia).
  pose proof (len_nonneg junk).
  pose proof (len_nonneg (concat ((λ hop, hop.1 ++ hop.2) <$> hops))).
  unfold parse_v3_path_bytes, encode_v3_path. cbv zeta.
  rewrite bool_decide_eq_false_2 by (rewrite !len_app; lia).
  rewrite <- app_assoc.
  assert (slice (t0 ++ concat ((λ hop, hop.1 ++ hop.2) <$> hops) ++ junk) 0 (0 + 20) = t0) as ->.
  { apply (slice_app_mid [] t0); [done|]. change (len (@nil byte)) with 0. lia. }
  replace (0 + 20) with (len t0) by lia.
  by rewrite v3_path_loop_hops.
Qed.

(** X16 on three tokens, two fees and a tail of two bytes. *)
Lemma parse_v3_path_bytes_encode_witness :
  let t0 := replicate 20 x11 in
  let hops := [([x00; x01; xf4], replicate 20 x22); ([x00; x0b; xb8], replicate 20 x33)] in
  parse_v3_path_bytes (encode_v3_path t0 hops ++ [x00; x01]) =
    ("0x" +:+ hex t0) :: ((λ hop, "0x" +:+ hex hop.2) <$> hops).
Proof.
  apply parse_v3_path_bytes_encode; [reflexivity| |vm_compute; reflexivity].
  repeat constructor.
Defined.

(** X17: every token of [parse_v3_path_bytes] is [0x] plus 40 lower-case
    hexadecimal digits, and the tokens with the fees between them fit in the
    input. *)
Theorem parse_v3_path_bytes_tokens (b : bytes) :
  Forall (λ t, is_address_text t = true) (parse_v3_path_bytes b) ∧
  (parse_v3_path_bytes b ≠ [] → 23 * len (parse_v3_path_bytes b) - 3 ≤ len b).
Proof.
  rewrite parse_v3_path_bytes_eq. case_bool_decide as Hlen; [split; [constructor|done]|].
  assert (0 ≤ (len b - 20) `div` 23) as Hq by (apply Z.div_pos; lia).
  pose proof (Z.div_mod (len b - 20) 23 ltac:(lia)) as Hdiv.
  pose proof (Z.mod_pos_bound (len b - 20) 23 ltac:(lia)) as Hmod.
  split.
  - apply Forall_fmap, Forall_forall. intros k Hk%elem_of_range.
    unfold compose, v3_token_at. apply is_address_text_hex.
    assert (len (slice b (23 * k) (23 * k + 20)) = 20) as Hs
      by (rewrite length_slice_in_range; lia).
    unfold len in Hs. lia.
  - intros _. unfold len at 1. rewrite length_fmap, length_range. lia.
Qed.

(** X17 on a token, a fee and nineteen bytes: one token, and [23 - 3 <= 42]. *)
Lemma parse_v3_path_bytes_tokens_witness :
  let b := replicate 20 xab ++ [x00; x01; xf4] ++ replicate 19 xcd in
  Forall (λ t, is_address_text t = true) ["0xabababababababababababababababababababab"] ∧
  23 * len (parse_v3_path_bytes b) - 3 ≤ len b.
Proof.
  intros b. destruct (parse_v3_path_bytes_tokens b) as [Htext Hfit].
  split; [exact Htext|]. apply Hfit. vm_compute. discriminate.
Defined.

(** ** [decode_v3_exact] as a function of the bytes *)

(** The dictionary that [decode_v3_exact] builds from the head words 1 to
    4. *)
Lemma decode_v3_exact_eq payload sel :
  decode_v3_exact payload sel =
    if bool_decide (len payload ≤ 128) then Raise V3StructTooShort
    else
      let off := u256 (slice payload 0 32) in
      let ln := u256 (slice payload off (off + 32)) in
      let recipient := VStr (to_hex_addr (slice payload 32 64)) in
      let deadline := VInt (u256 (slice payload 64 96)) in
      let a3 := VInt (u256 (slice payload 96 128)) in
      let a4 := VInt (u256 (slice payload 128 160)) in
      if negb (is_offset_like off (len payload)) then Raise BadPathOffsetV3
      else if bool_decide (off + 32 + ln > len payload) then Raise DynamicBodyTruncated
      else
        Ok (if bool_decide (sel = SEL_V3_EXACT_INPUT)
            then <["amountOutMin" := a4]> (<["amountIn" := a3]>
                   (<["deadline" := deadline]> (<["recipient" := recipient]> ∅)))
            else <["amountInMax" := a4]> (<["amountOut" := a3]>
                   (<["deadline" := deadline]> (<["recipient" := recipient]> ∅))),
            parse_v3_path_bytes (slice payload (off + 32) (off + 32 + ln))).
Proof.
  unfold decode_v3_exact. cbv zeta. rewrite length_words.
  pose proof (len_nonneg payload) as Hn.
  pose proof (Z.div_mod (len payload + 31) 32 ltac:(lia)) as Hdiv.
  pose proof (Z.mod_pos_bound (len payload + 31) 32 ltac:(lia)) as Hmod.
  destruct (decide (len payload ≤ 128)) as [Hshort|Hlong].
  { rewrite bool_decide_eq_true_2 by lia. simpl. by rewrite bool_decide_eq_true_2. }
  rewrite bool_decide_eq_false_2 by lia. simpl. rewrite (bool_decide_eq_false_2 (_ ≤ 128)) by done.
  assert (∀ k : nat, (k < 5)%nat →
            index (words payload) k =
              Ok (slice payload (32 * Z.of_nat k) (32 * Z.of_nat k + 32))) as Hidx.
  { intros k Hk. apply index_lookup. rewrite lookup_words.
    by rewrite bool_decide_eq_true_2 by lia. }
  rewrite (Hidx 0%nat), (Hidx 1%nat), (Hidx 2%nat), (Hidx 3%nat), (Hidx 4%nat) by lia.
  change (32 * Z.of_nat 0) with 0. change (32 * Z.of_nat 1) with 32.
  change (32 * Z.of_nat 2) with 64. change (32 * Z.of_nat 3) with 96.
  change (32 * Z.of_nat 4) with 128.
  change (0 + 32) with 32. change (32 + 32) with 64. change (64 + 32) with 96.
  change (96 + 32) with 128. change (128 + 32) with 160.
  cbn [mbind result_bind].
  destruct (is_offset_like _ _) eqn:Hoff; [|done]. simpl negb. cbv iota.
  apply is_offset_like_true in Hoff.
  rewrite read_dyn_cases. cbv zeta.
  rewrite (bool_decide_eq_false_2 (_ + 32 > len payload)) by lia.
  repeat case_bool_decide; reflexivity.
Qed.

(** X18: [decode_v3_exact] depends on the bytes as follows: it needs more
    than 128 of them, reads the path offset from bytes 0 to 32, the recipient
    from 32 to 64, the deadline from 64 to 96 and the two amounts from 96 to
    128 and 128 to 160 (a short last range is read as it is), and hands the
    bytes that follow the length word at the path offset to
    [parse_v3_path_bytes]. *)
Theorem decode_v3_exact_bytes payload sel :
  decode_v3_exact payload sel =
    if bool_decide (len payload ≤ 128) then Raise V3StructTooShort
    else
      let off := u256 (slice payload 0 32) in
      let ln := u256 (slice payload off (off + 32)) in
      let recipient := VStr (to_hex_addr (slice payload 32 64)) in
      let deadline := VInt (u256 (slice payload 64 96)) in
      let a3 := VInt (u256 (slice payload 96 128)) in
      let a4 := VInt (u256 (slice payload 128 160)) in
      if negb (is_offset_like off (len payload)) then Raise BadPathOffsetV3
      else if bool_decide (off + 32 + ln > len payload) then Raise DynamicBodyTruncated
      else
        Ok (if bool_decide (sel = SEL_V3_EXACT_INPUT)
            then <["amountOutMin" := a4]> (<["amountIn" := a3]>
                   (<["deadline" := deadline]> (<["recipient" := recipient]> ∅)))
            else <["amountInMax" := a4]> (<["amountOut" := a3]>
                   (<["deadline" := deadline]> (<["recipient" := recipient]> ∅))),
            parse_v3_path_bytes (slice payload (off + 32) (off + 32 + ln))).
Proof. apply decode_v3_exact_eq. Qed.

Ltac case_offset_like :=
  try match goal with
      | |- context [is_offset_like ?v ?total] => destruct (is_offset_like v total)
      end.

(** X19: [decode_v3_exact] fails in three ways only: "V3 struct too
    short", "Bad offset for path (V3)" and "Dynamic body truncated".  It
    never raises [IndexError] or "Dynamic head points out of bounds", on any
    buffer and any selector. *)
Theorem decode_v3_exact_errors payload sel e :
  decode_v3_exact payload sel = Raise e →
  e ∈ [V3StructTooShort; BadPathOffsetV3; DynamicBodyTruncated] ∧
  e ≠ IndexError ∧ e ≠ DynamicHeadOutOfBounds.
Proof.
  rewrite decode_v3_exact_eq. cbv zeta.
  repeat case_bool_decide; case_offset_like; simpl;
    intros ?; simplify_eq; (split_and!; [set_solver|done|done]).
Qed.

(** X19 on the empty buffer. *)
Lemma decode_v3_exact_errors_witness :
  V3StructTooShort ∈ [V3StructTooShort; BadPathOffsetV3; DynamicBodyTruncated] ∧
  V3StructTooShort ≠ IndexError ∧ V3StructTooShort ≠ DynamicHeadOutOfBounds.
Proof. apply (decode_v3_exact_errors [] SEL_V3_EXACT_INPUT). reflexivity. Defined.

(** X20: a successful [decode_v3_exact] returns four fields: [recipient]
    and [deadline] with [amountIn] and [amountOutMin] for the selector of
    exactInput, and with [amountOut] and [amountInMax] for every other
    selector; the decoder rejects no selector. *)
Theorem decode_v3_exact_fields payload sel fields toks :
  decode_v3_exact payload sel = Ok (fields, toks) →
  dom fields = (if bool_decide (sel = SEL_V3_EXACT_INPUT)
                then {[ "recipient"; "deadline"; "amountIn"; "amountOutMin" ]}
                else {[ "recipient"; "deadline"; "amountOut"; "amountInMax" ]} : gset string) ∧
  fields !! "recipient" = Some (VStr (to_hex_addr (slice payload 32 64))) ∧
  fields !! "deadline" = Some (VInt (u256 (slice payload 64 96))) ∧
  (∀ sel', sel' ≠ SEL_V3_EXACT_INPUT → sel ≠ SEL_V3_EXACT_INPUT →
     decode_v3_exact payload sel' = Ok (fields, toks)).
Proof.
  rewrite decode_v3_exact_eq. cbv zeta. intros Hdec.
  split_and!.
  - revert Hdec. repeat case_bool_decide; case_offset_like; simpl;
      intros ?; simplify_eq; rewrite !dom_insert_L, dom_empty_L; set_solver.
  - revert Hdec. repeat case_bool_decide; case_offset_like; simpl;
      intros ?; by simplify_map_eq.
  - revert Hdec. repeat case_bool_decide; case_offset_like; simpl;
      intros ?; by simplify_map_eq.
  - intros sel' Hsel' Hsel. rewrite decode_v3_exact_eq. cbv zeta.
    rewrite (bool_decide_eq_false_2 (sel' = _)) by done.
    by rewrite (bool_decide_eq_false_2 (sel = _)) in Hdec by done.
Qed.

(** X20 on the calldata whose path lies in the head, with the selector of
    exactOutput. *)
Lemma decode_v3_exact_fields_witness :
  let fields : gmap string value :=
    <["amountInMax" := VInt 9]> (<["amountOut" := VInt 7]>
      (<["deadline" :=
           VInt 0x0102030405060708090a0b0c0d0e0f101112131415161718191a1b1c1d1e1f20]>
         (<["recipient" := VStr "0x0000000000000000000000000000000000000014"]> ∅))) in
  dom fields = {[ "recipient"; "deadline"; "amountOut"; "amountInMax" ]} ∧
  fields !! "recipient" =
    Some (VStr (to_hex_addr (slice calldata_v3_path_in_head 32 64))) ∧
  fields !! "deadline" = Some (VInt (u256 (slice calldata_v3_path_in_head 64 96))) ∧
  (∀ sel', sel' ≠ SEL_V3_EXACT_INPUT → SEL_V3_EXACT_OUTPUT ≠ SEL_V3_EXACT_INPUT →
     decode_v3_exact calldata_v3_path_in_head sel' =
       Ok (fields, ["0x0102030405060708090a0b0c0d0e0f1011121314"])).
Proof.
  apply (decode_v3_exact_fields calldata_v3_path_in_head SEL_V3_EXACT_OUTPUT).
  vm_compute. reflexivity.
Defined.

(** X21: well-formed V3 calldata decodes to its parts: for five 32-byte
    head words of which the first has the value 160, a 32-byte length word
    with the length of the path, the path, and anything after it,
    [decode_v3_exact] returns the recipient, the deadline and the two
    amounts of the head words and the tokens of the path. *)
Theorem decode_v3_exact_layout (w0 w1 w2 w3 w4 lw path post : bytes) sel :
  Forall (λ c, length c = 32%nat) [w0; w1; w2; w3; w4; lw] →
  u256 w0 = 160 → u256 lw = len path →
  decode_v3_exact (w0 ++ w1 ++ w2 ++ w3 ++ w4 ++ lw ++ path ++ post) sel =
    Ok (if bool_decide (sel = SEL_V3_EXACT_INPUT)
        then <["amountOutMin" := VInt (u256 w4)]> (<["amountIn" := VInt (u256 w3)]>
               (<["deadline" := VInt (u256 w2)]> (<["recipient" := VStr (to_hex_addr w1)]> ∅)))
        else <["amountInMax" := VInt (u256 w4)]> (<["amountOut" := VInt (u256 w3)]>
               (<["deadline" := VInt (u256 w2)]> (<["recipient" := VStr (to_hex_addr w1)]> ∅))),
        parse_v3_path_bytes path).
Proof.
  intros Hcs H160 Hlw.
  set (cs := [w0; w1; w2; w3; w4; lw]) in *.
  set (payload := w0 ++ w1 ++ w2 ++ w3 ++ w4 ++ lw ++ path ++ post).
  assert (payload = concat cs ++ path ++ post) as Hp.
  { unfold payload, cs. cbn [concat]. by rewrite app_nil_r, <- !app_assoc. }
  pose proof (len_nonneg path). pose proof (len_nonneg post).
  assert (len (concat cs) = 192) as Hhead by (by rewrite len_concat_words).
  assert (len payload = 192 + len path + len post) as Hlen
    by (rewrite Hp, !len_app; lia).
  assert (∀ (k : nat) c, cs !! k = Some c →
            slice payload (32 * Z.of_nat k) (32 * Z.of_nat k + 32) = c) as Hslice.
  { intros k c Hk. rewrite Hp. by apply slice_concat_word_app. }
  rewrite decode_v3_exact_eq. cbv zeta.
  rewrite bool_decide_eq_false_2 by lia.
  assert (slice payload 0 32 = w0) as -> by exact (Hslice 0%nat _ eq_refl).
  assert (slice payload 32 64 = w1) as -> by exact (Hslice 1%nat _ eq_refl).
  assert (slice payload 64 96 = w2) as -> by exact (Hslice 2%nat _ eq_refl).
  assert (slice payload 96 128 = w3) as -> by exact (Hslice 3%nat _ eq_refl).
  assert (slice payload 128 160 = w4) as -> by exact (Hslice 4%nat _ eq_refl).
  rewrite H160.
  assert (slice payload 160 (160 + 32) = lw) as -> by exact (Hslice 5%nat _ eq_refl).
  assert (is_offset_like 160 (len payload) = true) as ->.
  { apply is_offset_like_true. split; [done|lia]. }
  simpl negb. cbv iota. rewrite Hlw, bool_decide_eq_false_2 by lia.
  assert (slice payload (160 + 32) (160 + 32 + len path) = path) as ->; [|done].
  rewrite Hp. apply slice_app_mid; lia.
Qed.

(** X21 on a path of two tokens and one fee. *)
Lemma decode_v3_exact_layout_witness :
  let w := replicate 32 x00 in
  let path := replicate 20 x11 ++ [x00; x01; xf4] ++ replicate 20 x22 in
  decode_v3_exact (abi_uint256 160 ++ w ++ w ++ w ++ w ++ abi_uint256 43 ++ path ++ [])
    SEL_V3_EXACT_INPUT =
    Ok (<["amountOutMin" := VInt (u256 w)]> (<["amountIn" := VInt (u256 w)]>
          (<["deadline" := VInt (u256 w)]> (<["recipient" := VStr (to_hex_addr w)]> ∅))),
        parse_v3_path_bytes path).
Proof.
  intros w path.
  apply (decode_v3_exact_layout (abi_uint256 160) w w w w (abi_uint256 43) path []
           SEL_V3_EXACT_INPUT); [repeat constructor|reflexivity|reflexivity].
Defined.

(** ** Well-formed V2 calldata *)

(** [decode_v2] on an ETH variant whose four head words are there and
    whose path decodes. *)
Lemma decode_v2_eth_ok payload sel w0 w2 w3 toks :
  sel ∈ v2_eth_selectors → sel ∉ v2_token_selectors →
  words payload !! 0%nat = Some w0 → words payload !! 2%nat = Some w2 →
  words payload !! 3%nat = Some w3 →
  decode_path_at_arg payload (words payload) (len payload) 1 = Ok toks →
  decode_v2 payload sel =
    Ok (<["deadline" := VInt (u256 w3)]> (<["to" := VStr (to_hex_addr w2)]>
          (<["amount0" := VInt (u256 w0)]> ∅)), toks).
Proof.
  intros Hsel Hnot H0 H2 H3 Hpath. unfold decode_v2.
  fold v2_token_selectors v2_eth_selectors.
  rewrite bool_decide_eq_false_2, bool_decide_eq_true_2 by done.
  rewrite (index_lookup _ _ _ H0), (index_lookup _ _ _ H2), (index_lookup _ _ _ H3).
  simpl. by rewrite Hpath.
Qed.

(** X22: well-formed calldata of a token variant decodes to its parts:
    for head words [amount0], [amount1], a path offset of 160, [to] and
    [deadline], a length word with the number of path elements, the 32-byte
    elements, and anything after them, [decode_v2] returns the two amounts,
    the recipient, the deadline and the addresses of the elements. *)
Theorem decode_v2_token_layout (w0 w1 woff w3 w4 lw post : bytes) addrs sel :
  sel ∈ v2_token_selectors →
  Forall (λ c, length c = 32%nat) [w0; w1; woff; w3; w4; lw] →
  Forall (λ a, length a = 32%nat) addrs →
  u256 woff = 160 → u256 lw = len addrs →
  decode_v2 (w0 ++ w1 ++ woff ++ w3 ++ w4 ++ lw ++ concat addrs ++ post) sel =
    Ok (<["deadline" := VInt (u256 w4)]> (<["to" := VStr (to_hex_addr w3)]>
          (<["amount1" := VInt (u256 w1)]> (<["amount0" := VInt (u256 w0)]> ∅))),
        to_hex_addr <$> addrs).
Proof.
  intros Hsel Hcs Haddrs H160 Hlw.
  set (payload := w0 ++ w1 ++ woff ++ w3 ++ w4 ++ lw ++ concat addrs ++ post).
  set (cs := [w0; w1; woff; w3; w4]) in *.
  assert (Forall (λ c, length c = 32%nat) cs) as Hcs5.
  { unfold cs. repeat (apply Forall_cons in Hcs as [? Hcs]). repeat constructor; done. }
  assert (length lw = 32%nat) as Hlw32.
  { repeat (apply Forall_cons in Hcs as [? Hcs]). done. }
  assert (Forall (λ c, length c = 32%nat) (cs ++ [lw] ++ addrs)) as Hall.
  { apply Forall_app. split; [done|]. apply Forall_app. split; [|done]. by repeat constructor. }
  assert (payload = concat cs ++ lw ++ concat addrs ++ post) as Hp.
  { unfold payload, cs. cbn [concat]. by rewrite app_nil_r, <- !app_assoc. }
  assert (payload = concat (cs ++ [lw] ++ addrs) ++ post) as Hp'.
  { rewrite Hp, !concat_app. cbn [concat]. by rewrite ?app_nil_r, <- ?app_assoc. }
  assert (∀ (k : nat) c, (cs ++ [lw] ++ addrs) !! k = Some c →
            words payload !! k = Some c) as Hword.
  { intros k c Hk. rewrite lookup_words.
    pose proof (lookup_lt_Some _ _ _ Hk) as Hlt.
    rewrite bool_decide_eq_true_2.
    - f_equal. rewrite Hp'. by apply slice_concat_word_app.
    - rewrite Hp', len_app, len_concat_words by done.
      pose proof (len_nonneg post). unfold len. lia. }
  assert (len payload = 192 + 32 * len addrs + len post) as Hlen.
  { rewrite Hp', len_app, len_concat_words by done.
    unfold len. rewrite !length_app. simpl. lia. }
  pose proof (len_nonneg addrs). pose proof (len_nonneg post).
  apply decode_v2_token_ok; [done|by apply Hword..|].
  apply (decode_path_at_arg_concat payload _ _ _ woff (concat cs) lw addrs post);
    [by apply Hword| |done| |done..].
  - rewrite H160. apply is_offset_like_true. split; [done|lia].
  - by rewrite H160, len_concat_words.
Qed.

(** X22 on a path of three elements. *)
Lemma decode_v2_token_layout_witness :
  let w := replicate 32 x00 in
  let A := replicate 12 x00 ++ replicate 20 x01 in
  let B := replicate 12 x00 ++ replicate 20 x02 in
  let C := replicate 12 x00 ++ replicate 20 x03 in
  decode_v2 (abi_uint256 5 ++ w ++ abi_uint256 160 ++ w ++ abi_uint256 9 ++
             abi_uint256 3 ++ concat [A; B; C] ++ [])
    SEL_V2_SWAP_TOKENS_FOR_EXACT_TOKENS =
    Ok (<["deadline" := VInt (u256 (abi_uint256 9))]> (<["to" := VStr (to_hex_addr w)]>
          (<["amount1" := VInt (u256 w)]> (<["amount0" := VInt (u256 (abi_uint256 5))]> ∅))),
        to_hex_addr <$> [A; B; C]).
Proof.
  intros w A B C.
  apply (decode_v2_token_layout (abi_uint256 5) w (abi_uint256 160) w (abi_uint256 9)
           (abi_uint256 3) [] [A; B; C] SEL_V2_SWAP_TOKENS_FOR_EXACT_TOKENS);
    [vm_compute; set_solver|repeat constructor|repeat constructor|reflexivity|reflexivity].
Defined.

(** X23: well-formed calldata of an ETH variant decodes to its parts: for
    head words [amount0], a path offset of 128, [to] and [deadline], a length
    word with the number of path elements, the 32-byte elements, and anything
    after them, [decode_v2] returns the amount, the recipient, the deadline
    and the addresses of the elements; there is no [amount1]. *)
Theorem decode_v2_eth_layout (w0 woff w2 w3 lw post : bytes) addrs sel :
  sel ∈ v2_eth_selectors →
  Forall (λ c, length c = 32%nat) [w0; woff; w2; w3; lw] →
  Forall (λ a, length a = 32%nat) addrs →
  u256 woff = 128 → u256 lw = len addrs →
  decode_v2 (w0 ++ woff ++ w2 ++ w3 ++ lw ++ concat addrs ++ post) sel =
    Ok (<["deadline" := VInt (u256 w3)]> (<["to" := VStr (to_hex_addr w2)]>
          (<["amount0" := VInt (u256 w0)]> ∅)),
        to_hex_addr <$> addrs).
Proof.
  intros Hsel Hcs Haddrs H128 Hlw.
  set (payload := w0 ++ woff ++ w2 ++ w3 ++ lw ++ concat addrs ++ post).
  set (cs := [w0; woff; w2; w3]) in *.
  assert (Forall (λ c, length c = 32%nat) cs) as Hcs4.
  { unfold cs. repeat (apply Forall_cons in Hcs as [? Hcs]). repeat constructor; done. }
  assert (length lw = 32%nat) as Hlw32.
  { repeat (apply Forall_cons in Hcs as [? Hcs]). done. }
  assert (Forall (λ c, length c = 32%nat) (cs ++ [lw] ++ addrs)) as Hall.
  { apply Forall_app. split; [done|]. apply Forall_app. split; [|done]. by repeat constructor. }
  assert (payload = concat cs ++ lw ++ concat addrs ++ post) as Hp.
  { unfold payload, cs. cbn [concat]. by rewrite app_nil_r, <- !app_assoc. }
  assert (payload = concat (cs ++ [lw] ++ addrs) ++ post) as Hp'.
  { rewrite Hp, !concat_app. cbn [concat]. by rewrite ?app_nil_r, <- ?app_assoc. }
  assert (∀ (k : nat) c, (cs ++ [lw] ++ addrs) !! k = Some c →
            words payload !! k = Some c) as Hword.
  { intros k c Hk. rewrite lookup_words.
    pose proof (lookup_lt_Some _ _ _ Hk) as Hlt.
    rewrite bool_decide_eq_true_2.
    - f_equal. rewrite Hp'. by apply slice_concat_word_app.
    - rewrite Hp', len_app, len_concat_words by done.
      pose proof (len_nonneg post). unfold len. lia. }
  assert (len payload = 160 + 32 * len addrs + len post) as Hlen.
  { rewrite Hp', len_app, len_concat_words by done.
    unfold len. rewrite !length_app. simpl. lia. }
  pose proof (len_nonneg addrs). pose proof (len_nonneg post).
  assert (sel ∉ v2_token_selectors) as Hnot.
  { intros Htok. unfold v2_eth_selectors, v2_token_selectors in *.
    set_unfold. destruct_or?; subst; destruct_or?; done. }
  apply decode_v2_eth_ok; [done|done|by apply Hword..|].
  apply (decode_path_at_arg_concat payload _ _ _ woff (concat cs) lw addrs post);
    [by apply Hword| |done| |done..].
  - rewrite H128. apply is_offset_like_true. split; [done|lia].
  - by rewrite H128, len_concat_words.
Qed.

(** X23 on a path of one element, with one byte after it. *)
Lemma decode_v2_eth_layout_witness :
  let w := replicate 32 x00 in
  let A := replicate 12 x00 ++ replicate 20 x01 in
  decode_v2 (abi_uint256 5 ++ abi_uint256 128 ++ w ++ abi_uint256 9 ++
             abi_uint256 1 ++ concat [A] ++ [xff])
    SEL_V2_SWAP_ETH_FOR_EXACT_TOKENS =
    Ok (<["deadline" := VInt (u256 (abi_uint256 9))]> (<["to" := VStr (to_hex_addr w)]>
          (<["amount0" := VInt (u256 (abi_uint256 5))]> ∅)),
        to_hex_addr <$> [A]).
Proof.
  intros w A.
  apply (decode_v2_eth_layout (abi_uint256 5) (abi_uint256 128) w (abi_uint256 9)
           (abi_uint256 1) [xff] [A] SEL_V2_SWAP_ETH_FOR_EXACT_TOKENS);
    [vm_compute; set_solver|repeat constructor|repeat constructor|reflexivity|reflexivity].
Defined.
